(** * TeqBot: the scheduler, the flag decoder, the durable markers and the
      task bodies of kteq-teqbot, embedded from [teq.py], [log.py],
      [stream.py] and [__main__.py]; then the metadata helpers, the Slack
      and TuneIn calls and the lyric check, from [tunein.py], [slack.py],
      [genius.py] and [teq.py].

    Strings are [string] (ASCII); Python integers are [N] where the program
    only builds non-negative values (bit masks) and [Z] for the clocks and the
    frequency; exceptions are values of [exn]; the working directory, the
    logger directory, the bot object and the external sinks are the fields of
    one [World] record threaded through a state-and-exception monad. *)

From Stdlib Require Import String Ascii List Bool Arith NArith ZArith Lia Permutation
  DecimalString.
Import ListNotations.
Open Scope string_scope.

(* ================================================================== *)
(** * Python primitives used by the program *)
(* ================================================================== *)

Module Py.

Inductive exn : Type :=
| KeyError (key : string)
| TypeError
| ValueError
| IndexError
| ZeroDivisionError
| FileNotFoundError.

Definition nl : string := String (ascii_of_nat 10) EmptyString.
Definition tab : string := String (ascii_of_nat 9) EmptyString.

(** [x in args] for a list of strings. *)
Definition mem (x : string) (l : list string) : bool :=
  existsb (String.eqb x) l.

(** [str.upper], on ASCII letters. *)
Definition upper_ascii (c : ascii) : ascii :=
  let n := nat_of_ascii c in
  if (97 <=? n)%nat && (n <=? 122)%nat then ascii_of_nat (n - 32) else c.

Fixpoint upper (s : string) : string :=
  match s with
  | EmptyString => EmptyString
  | String c s' => String (upper_ascii c) (upper s')
  end.

(** [int(s, base)] for base 2 and 10 on plain digit strings, the only
    strings the program passes: [None] stands for [ValueError] (empty
    string, a character that is not a digit of the base). *)
Definition digit_of (c : ascii) : option N :=
  let n := N_of_ascii c in
  if (48 <=? n)%N && (n <=? 57)%N then Some (n - 48)%N else None.

Fixpoint parse_digits (base acc : N) (s : string) : option N :=
  match s with
  | EmptyString => Some acc
  | String c s' =>
      match digit_of c with
      | Some d => if (d <? base)%N then parse_digits base (acc * base + d)%N s' else None
      | None => None
      end
  end.

Definition int_base (base : N) (s : string) : option N :=
  match s with
  | EmptyString => None
  | _ => parse_digits base 0 s
  end.

(** ["{0:b}".format(n)] for [n >= 0]: binary digits, most significant
    first, no leading zero, ["0"] for zero. *)
Fixpoint bits_pos (p : positive) (acc : string) : string :=
  match p with
  | xH => String "1" acc
  | xO p' => bits_pos p' (String "0" acc)
  | xI p' => bits_pos p' (String "1" acc)
  end.

Definition format_b (n : N) : string :=
  match n with
  | N0 => "0"
  | Npos p => bits_pos p EmptyString
  end.

(** [s.replace(old, new)] for a non-empty [old]: occurrences are replaced
    left to right without overlap; [skip] counts the characters of a match
    that are still to be dropped. *)
Fixpoint replace_from (old new : string) (skip : nat) (s : string) : string :=
  match s with
  | EmptyString => EmptyString
  | String c s' =>
      match skip with
      | S k => replace_from old new k s'
      | O =>
          if prefix old s
          then new ++ replace_from old new (String.length old - 1) s'
          else String c (replace_from old new 0 s')
      end
  end.

Definition replace (old new s : string) : string := replace_from old new 0 s.

(** [sep.join(l)]. *)
Fixpoint join (sep : string) (l : list string) : string :=
  match l with
  | [] => EmptyString
  | [x] => x
  | x :: rest => x ++ sep ++ join sep rest
  end.

(** [l.index(x)] when [x in l]. *)
Fixpoint index (x : string) (l : list string) : nat :=
  match l with
  | [] => 0
  | y :: rest => if String.eqb x y then 0 else S (index x rest)
  end.

(** Truth value of a string: non-empty. *)
Definition truthy (s : string) : bool :=
  match s with EmptyString => false | _ => true end.

End Py.

(* ================================================================== *)
(** * stream.py *)
(* ================================================================== *)

Module Stream.

Definition NO_DATA : string := "no data read from Icecast Server".
Definition URL_ERROR : string := "HTTP Request Timeout".

(** What one HTTP request to the Icecast page yields, after the HTML
    parser: the request timed out ([URLError]), the page has no
    [streamdata] cell, or the text of its last [streamdata] cell with
    the tags removed. *)
Inductive page : Type :=
| UrlTimeout
| NoCells
| LastCell (text : string).

Definition prep_message (cause : string) : string :=
  let msg := "ALERT!! STREAM IS DOWN!!" ++ Py.nl in
  let msg := msg ++ "Likely cause: " ++ Py.nl in
  if String.eqb cause NO_DATA then
    let msg := msg ++ "No data read from Icecast server. " ++ Py.nl in
    let msg := msg ++ "This at least means the computer is on, " in
    let msg := msg ++ "and icecast is running, but the altacast " in
    let msg := msg ++ "encoders aren't hooked up properly. This " in
    let msg := msg ++ "most often happens when someone boots up " in
    let msg := msg ++ "multiple instances of altacast on the station " in
    msg ++ "computer. I would start with looking at that."
  else if String.eqb cause URL_ERROR then
    let msg := msg ++ "HTTP Request Timeout. " ++ Py.nl in
    let msg := msg ++ "This could mean a multitude of things. " in
    let msg := msg ++ "Right off the bat, we know that icecast is " in
    let msg := msg ++ "acting off. This could be from the following " in
    let msg := msg ++ "problems: " ++ Py.nl in
    let msg := msg ++ "1) icecast has been closed on the computer" ++ Py.nl in
    let msg := msg ++ "2) multiple instances of icecast are running" ++ Py.nl in
    let msg := msg ++ "3) the station computer has lost internet access" ++ Py.nl in
    let msg := msg ++ "4) the station computer is rebooting" ++ Py.nl in
    let msg := msg ++ "5) the station computer is off, either from " in
    let msg := msg ++ "shutting down or from crashing." ++ Py.nl ++ Py.nl in
    let msg := msg ++ "When diagnosing this issue, please check on AltaCast " in
    msg ++ "as well, because that could also possibly be down." ++ Py.nl
  else
    let msg := msg ++ "Unknown Error!!! " ++ Py.nl in
    let msg := msg ++ "This should have never happened. " in
    let msg := msg ++ "I have no idea what is wrong. I'm truly sorry." ++ Py.nl in
    let msg := msg ++ "Just sit things out for a bit and and everything will " in
    msg ++ "be fine before long." ++ Py.nl.

(** [now_playing]: the cleaned cell, tagged. *)
Definition now_playing (data : string) : string := "#NowPlaying: " ++ data.

(** [ping_stream(url)] with [listeners=False], as a function of what the
    request yields. *)
Definition ping_stream (p : page) : bool * string :=
  match p with
  | LastCell data => (true, now_playing data)
  | NoCells => (false, prep_message NO_DATA)
  | UrlTimeout => (false, prep_message URL_ERROR)
  end.

End Stream.

(* ================================================================== *)
(** * log.py *)
(* ================================================================== *)

Module Log.

(** The scalar JSON values, as [json.load] builds them (floats, arrays
    and nested objects are left out: a swear log is a flat record). *)
Inductive jvalue : Type :=
| JNull
| JBool (b : bool)
| JInt (z : Z)
| JStr (s : string).

(** A JSON object as Python holds it: the items in insertion order. The
    keys of a [dict] are pairwise distinct. *)
Definition dict : Type := list (string * jvalue).

Definition keys (d : dict) : list string := map fst d.

Fixpoint lookup (k : string) (d : dict) : option jvalue :=
  match d with
  | [] => None
  | (k', v) :: rest => if String.eqb k k' then Some v else lookup k rest
  end.

(** [key in d]. *)
Definition has_key (k : string) (d : dict) : bool :=
  match lookup k d with Some _ => true | None => false end.

(** Python's [==] on these values: [bool] is a subtype of [int]. *)
Definition py_eq (a b : jvalue) : bool :=
  match a, b with
  | JNull, JNull => true
  | JStr s, JStr t => String.eqb s t
  | JBool x, JBool y => Bool.eqb x y
  | JInt x, JInt y => Z.eqb x y
  | JBool x, JInt y => Z.eqb (if x then 1 else 0) y
  | JInt x, JBool y => Z.eqb x (if y then 1 else 0)
  | _, _ => false
  end.

Definition LOG_SWEAR : Z := 1.

(** One [for key, value in a.items()] loop of [compare_json]: [false]
    is the early [return False]. *)
Fixpoint items_agree (items : dict) (other : dict) : bool :=
  match items with
  | [] => true
  | (key, value) :: rest =>
      match lookup key other with
      | None => false
      | Some value' =>
          if negb (py_eq value value') then false else items_agree rest other
      end
  end.

Definition compare_json (json1 json2 : dict) : bool :=
  if negb (items_agree json1 json2) then false
  else if negb (items_agree json2 json1) then false
  else true.

(** [read_json] on the content of the file ([None]: there is no such
    file) and [write_json]. *)
Definition read_json (file : option dict) : Py.exn + dict :=
  match file with
  | Some d => inr d
  | None => inl Py.FileNotFoundError
  end.

Definition write_json (data : dict) : option dict := Some data.

Definition fields : list string :=
  ["date"; "time"; "song title"; "song artist"; "song composer";
   "show name"; "report"].

(** The loop of [validate]: its body returns on the first field, either
    way; [None] is the loop running off an empty list. *)
Definition validate_loop (fs : list string) (data : dict) : option bool :=
  match fs with
  | [] => None
  | f :: _ => if negb (has_key f data) then Some false else Some true
  end.

Definition validate (data : dict) (log_type : Z) : bool :=
  if Z.eqb log_type LOG_SWEAR then
    match validate_loop fields data with
    | Some b => b
    | None => false
    end
  else false.

(** [msg + data[key]]: [KeyError] when the key is absent, [TypeError]
    when the value is not a string. *)
Definition append_field (msg : string) (data : dict) (key : string) : Py.exn + string :=
  match lookup key data with
  | None => inl (Py.KeyError key)
  | Some (JStr s) => inr (msg ++ s)
  | Some _ => inl Py.TypeError
  end.

Definition and_then {A B : Type} (r : Py.exn + A) (k : A -> Py.exn + B) : Py.exn + B :=
  match r with
  | inl e => inl e
  | inr a => k a
  end.

Definition generate_swear_log (data : dict) : Py.exn + string :=
  let msg := EmptyString in
  if validate data LOG_SWEAR then
    let msg := msg ++ "```" ++ Py.nl in
    and_then (append_field "SWEAR LOG SUBMISSION FROM " data "show name") (fun line =>
    let msg := msg ++ line ++ ":" ++ Py.nl ++ Py.nl in
    and_then (append_field ("Date         " ++ Py.tab) data "date") (fun line =>
    let msg := msg ++ line ++ Py.nl in
    and_then (append_field ("Time         " ++ Py.tab) data "time") (fun line =>
    let msg := msg ++ line ++ Py.nl in
    and_then (append_field ("Song     Name" ++ Py.tab) data "song title") (fun line =>
    let msg := msg ++ line ++ Py.nl in
    and_then (append_field ("Song   Artist" ++ Py.tab) data "song artist") (fun line =>
    let msg := msg ++ line ++ Py.nl in
    and_then (append_field ("Song Composer" ++ Py.tab) data "song composer") (fun line =>
    let msg := msg ++ line ++ Py.nl in
    let msg := msg ++ Py.nl ++ Py.nl in
    and_then (append_field ("Report:    " ++ Py.tab) data "report") (fun line =>
    let msg := msg ++ line in
    let msg := msg ++ "```" in
    inr msg)))))))
  else inr msg.

End Log.

(* ================================================================== *)
(** * teq.py *)
(* ================================================================== *)

Module Teq.

Definition STANDARD_FREQUENCY : Z := 5.

Definition NOW_PLAYING   : string := "00000001".
Definition STREAM_STATUS : string := "00000010".
Definition CHECK_LYRICS  : string := "00000100".
Definition SWEAR_LOG     : string := "00001000".
Definition OPTION_5      : string := "00010000".
Definition OPTION_6      : string := "00100000".
Definition OPTION_7      : string := "01000000".
Definition UPDATE_REPO   : string := "10000000".

Definition ROBOT_EMOJI : string := ":robot_face:".
Definition SKULL_EMOJI : string := ":skull:".
Definition MUSIC_EMOJI : string := ":musical_note:".

(** One [chat.postMessage] call made through [slack.send_message]. The
    channel is kept by name: resolving it to an id and the answer of the
    API belong to the Slack client. *)
Record notification : Type := mkNotification {
  n_channel : string;
  n_text : string;
  n_username : string;
  n_emoji : string
}.

(** Everything a task reads or writes: the marker files of the working
    directory ([None]: the file does not exist), the two JSON files of the
    logger directory, the fields of the [TeqBot] object, the number of
    requests made to the stream so far, and the calls received by the two
    sinks (oldest first). *)
Record World : Type := mkWorld {
  song_file : option string;        (* .teq.song *)
  lyric_file : option string;       (* .teq.lyric *)
  stat_file : option string;        (* .teq.stat *)
  swear_json : option Log.dict;     (* LOGGERPATH/swear.json *)
  lastSwear_json : option Log.dict; (* LOGGERPATH/lastSwear.json *)
  lastSong : string;                (* self.lastSong *)
  username : string;                (* self.username *)
  emoji : string;                   (* self.emoji *)
  message : string;                 (* self.message *)
  channel : option string;          (* self.channel *)
  probes : nat;                     (* requests sent to the stream *)
  outbox : list notification;       (* messages posted to Slack *)
  tunein_posts : list string        (* metadata handed to tunein.post *)
}.

Definition with_song_file (v : option string) (w : World) : World :=
  mkWorld v (lyric_file w) (stat_file w) (swear_json w) (lastSwear_json w)
          (lastSong w) (username w) (emoji w) (message w) (channel w)
          (probes w) (outbox w) (tunein_posts w).

Definition with_lyric_file (v : option string) (w : World) : World :=
  mkWorld (song_file w) v (stat_file w) (swear_json w) (lastSwear_json w)
          (lastSong w) (username w) (emoji w) (message w) (channel w)
          (probes w) (outbox w) (tunein_posts w).

Definition with_stat_file (v : option string) (w : World) : World :=
  mkWorld (song_file w) (lyric_file w) v (swear_json w) (lastSwear_json w)
          (lastSong w) (username w) (emoji w) (message w) (channel w)
          (probes w) (outbox w) (tunein_posts w).

Definition with_lastSwear_json (v : option Log.dict) (w : World) : World :=
  mkWorld (song_file w) (lyric_file w) (stat_file w) (swear_json w) v
          (lastSong w) (username w) (emoji w) (message w) (channel w)
          (probes w) (outbox w) (tunein_posts w).

Definition with_lastSong (v : string) (w : World) : World :=
  mkWorld (song_file w) (lyric_file w) (stat_file w) (swear_json w) (lastSwear_json w)
          v (username w) (emoji w) (message w) (channel w)
          (probes w) (outbox w) (tunein_posts w).

Definition with_emoji (v : string) (w : World) : World :=
  mkWorld (song_file w) (lyric_file w) (stat_file w) (swear_json w) (lastSwear_json w)
          (lastSong w) (username w) v (message w) (channel w)
          (probes w) (outbox w) (tunein_posts w).

Definition with_message (v : string) (w : World) : World :=
  mkWorld (song_file w) (lyric_file w) (stat_file w) (swear_json w) (lastSwear_json w)
          (lastSong w) (username w) (emoji w) v (channel w)
          (probes w) (outbox w) (tunein_posts w).

Definition with_channel (v : option string) (w : World) : World :=
  mkWorld (song_file w) (lyric_file w) (stat_file w) (swear_json w) (lastSwear_json w)
          (lastSong w) (username w) (emoji w) (message w) v
          (probes w) (outbox w) (tunein_posts w).

Definition with_probes (v : nat) (w : World) : World :=
  mkWorld (song_file w) (lyric_file w) (stat_file w) (swear_json w) (lastSwear_json w)
          (lastSong w) (username w) (emoji w) (message w) (channel w)
          v (outbox w) (tunein_posts w).

Definition with_outbox (v : list notification) (w : World) : World :=
  mkWorld (song_file w) (lyric_file w) (stat_file w) (swear_json w) (lastSwear_json w)
          (lastSong w) (username w) (emoji w) (message w) (channel w)
          (probes w) v (tunein_posts w).

Definition with_tunein_posts (v : list string) (w : World) : World :=
  mkWorld (song_file w) (lyric_file w) (stat_file w) (swear_json w) (lastSwear_json w)
          (lastSong w) (username w) (emoji w) (message w) (channel w)
          (probes w) (outbox w) v.

(** The bot as [__init__] leaves it, in an empty working directory. *)
Definition init_world : World :=
  mkWorld None None None None None
          EmptyString "TEQ-BOT" ROBOT_EMOJI EmptyString None 0 [] [].

(** ** State and exceptions *)

Inductive outcome (A : Type) : Type :=
| Ok (a : A) (w : World)
| Raise (e : Py.exn) (w : World).
Arguments Ok {A} a w.
Arguments Raise {A} e w.

Definition M (A : Type) : Type := World -> outcome A.

Definition ret {A : Type} (a : A) : M A := fun w => Ok a w.

Definition bind {A B : Type} (m : M A) (k : A -> M B) : M B :=
  fun w =>
    match m w with
    | Ok a w' => k a w'
    | Raise e w' => Raise e w'
    end.

Definition gets {A : Type} (f : World -> A) : M A := fun w => Ok (f w) w.
Definition modify (f : World -> World) : M unit := fun w => Ok tt (f w).
Definition lift {A : Type} (r : Py.exn + A) : M A :=
  fun w => match r with inl e => Raise e w | inr a => Ok a w end.

Notation "x <- m ;; k" := (bind m (fun x => k))
  (at level 61, m at next level, right associativity).
Notation "m ;;; k" := (bind m (fun _ => k))
  (at level 61, right associativity).

Definition world_of {A : Type} (o : outcome A) : World :=
  match o with Ok _ w => w | Raise _ w => w end.

Definition raised {A : Type} (o : outcome A) : bool :=
  match o with Ok _ _ => false | Raise _ _ => true end.

(** ** The durable markers *)

(** The setters open the file for writing and write; the file object is
    dropped on return, which flushes it. *)
Definition set_last_played (song : string) (w : World) : World :=
  with_song_file (Some song) w.

Definition get_last_played (w : World) : World :=
  match song_file w with
  | Some content => with_lastSong content w
  | None => with_lastSong EmptyString w
  end.

Definition set_last_lyric (song : string) (w : World) : World :=
  with_lyric_file (Some song) w.

Definition get_last_lyric (w : World) : string :=
  match lyric_file w with
  | Some content => content
  | None => EmptyString
  end.

Definition set_stat_file (status : string) (w : World) : World :=
  with_stat_file (Some status) w.

Definition check_stat_file (check : string) (w : World) : bool :=
  match stat_file w with
  | Some stat => String.eqb check stat
  | None => false
  end.

Definition delete_stat_file (w : World) : World :=
  match stat_file w with
  | Some _ => with_stat_file None w
  | None => w
  end.

Definition set_last_song (song : string) (w : World) : World :=
  with_lastSong song w.

(** ** Slack and TuneIn wrappers *)

Definition set_emoji (emojiName : string) (w : World) : World := with_emoji emojiName w.
Definition set_message (msg : string) (w : World) : World := with_message msg w.
Definition set_channel (name : string) (w : World) : World := with_channel (Some name) w.

Definition channel_name (w : World) : string :=
  match channel w with Some c => c | None => EmptyString end.

(** [send_message]: one call to [slack.send_message] with the current
    channel, message, user name and emoji; the message is cleared
    afterwards. The status returned by Slack is only printed. *)
Definition send_message (w : World) : World :=
  let sent := mkNotification (channel_name w) (message w) (username w) (emoji w) in
  set_message EmptyString (with_outbox (outbox w ++ [sent]) w).

Definition teq_message (msg chan emo : string) : M unit :=
  modify (set_emoji emo) ;;;
  modify (set_message msg) ;;;
  modify (set_channel chan) ;;;
  modify send_message ;;;
  modify (set_emoji ROBOT_EMOJI).

Definition tunein (metadata : string) : M unit :=
  modify (fun w => with_tunein_posts (tunein_posts w ++ [metadata]) w).

Definition now_playing (metadata : string) : string :=
  Py.replace "__by__" "by" metadata.

(** ** The stream and the task bodies *)

Section Tasks.

(** [net k] is what the [k]-th request sent to the stream yields. *)
Variable net : nat -> Stream.page.

Definition ping_stream : M (bool * string) :=
  fun w => Ok (Stream.ping_stream (net (probes w))) (with_probes (S (probes w)) w).

Definition get_now_playing : M string :=
  r <- ping_stream ;;
  ret (snd r).

Definition check_last_played : M bool :=
  file <- gets song_file ;;
  match file with
  | Some song =>
      check <- get_now_playing ;;
      if String.eqb song "None" then
        modify (set_last_song check) ;;;
        modify (set_last_played check) ;;;
        ret true
      else if negb (String.eqb check song) then
        modify (set_last_song check) ;;;
        modify (set_last_played check) ;;;
        ret true
      else ret false
  | None => ret false
  end.

Definition task_now_playing : M unit :=
  modify get_last_played ;;;
  _ <- get_now_playing ;;
  newsong <- check_last_played ;;
  if newsong then
    song <- gets lastSong ;;
    teq_message (now_playing song) "nowplaying" MUSIC_EMOJI ;;;
    song <- gets lastSong ;;
    tunein song
  else ret tt.

(** [for i in range(0, 5)]: ping, leave the loop on the first success;
    [last] is the pair bound by the previous iteration. *)
Fixpoint probe_loop (remaining : nat) (last : bool * string) : M (bool * string) :=
  match remaining with
  | O => ret last
  | S k =>
      r <- ping_stream ;;
      if fst r then ret r else probe_loop k r
  end.

Definition task_stream_status : M unit :=
  r <- probe_loop 5 (false, EmptyString) ;;
  let online := fst r in
  let msg := snd r in
  if online then
    was_down <- gets (check_stat_file "Stream Down") ;;
    if was_down then
      modify (set_stat_file "Running") ;;;
      teq_message "The Stream is Back Online!" "engineering" ROBOT_EMOJI
    else ret tt
  else
    teq_message msg "engineering" SKULL_EMOJI ;;;
    modify (set_stat_file "Stream Down").

Definition task_swear_log : M unit :=
  file <- gets swear_json ;;
  data <- lift (Log.read_json file) ;;
  file <- gets lastSwear_json ;;
  lastSwear <- lift (Log.read_json file) ;;
  if negb (Log.compare_json data lastSwear) then
    modify (with_lastSwear_json (Log.write_json data)) ;;;
    swear_msg <- lift (Log.generate_swear_log data) ;;
    if Py.truthy swear_msg then
      teq_message swear_msg "engineering" SKULL_EMOJI
    else ret tt
  else ret tt.

(** [n] successive invocations of a task, stopping at the first one that
    raises. *)
Fixpoint repeat_task (n : nat) (task : M unit) : M unit :=
  match n with
  | O => ret tt
  | S k => task ;;; repeat_task k task
  end.

End Tasks.

(** ** The scheduler *)

Inductive Task : Type :=
| NowPlayingTask
| StreamStatusTask
| CheckLyricsTask
| SwearLogTask
| UpdateRepoTask.

(** The option of [teqbot task] the scheduler spawns a task with. *)
Definition task_option (t : Task) : string :=
  match t with
  | NowPlayingTask => "--nowplaying"
  | StreamStatusTask => "--status"
  | CheckLyricsTask => "--lyric"
  | SwearLogTask => "--swear"
  | UpdateRepoTask => "--update"
  end.

Record Clocks : Type := mkClocks {
  nowPlayingClock : Z;
  streamStatusClock : Z;
  updateRepoClock : Z;
  checkLyricsClock : Z;
  swearLogClock : Z
}.

Record Flags : Type := mkFlags {
  nowPlaying : N;
  streamStatus : N;
  updateRepo : N;
  checkLyrics : N;
  swearLog : N
}.

(** [int( "{0:b}".format( int(event, 2) & int(bit, 2) ) )]: the masked
    value is written in binary and read back in base ten. *)
Definition task_flag (event bit : string) : Py.exn + N :=
  match Py.int_base 2 event with
  | None => inl Py.ValueError
  | Some e =>
      match Py.int_base 2 bit with
      | None => inl Py.ValueError
      | Some b =>
          match Py.int_base 10 (Py.format_b (N.land e b)) with
          | None => inl Py.ValueError
          | Some v => inr v
          end
      end
  end.

Definition decode_flags (event : string) : Py.exn + Flags :=
  Log.and_then (task_flag event NOW_PLAYING) (fun nowPlaying =>
  Log.and_then (task_flag event STREAM_STATUS) (fun streamStatus =>
  Log.and_then (task_flag event UPDATE_REPO) (fun updateRepo =>
  Log.and_then (task_flag event CHECK_LYRICS) (fun checkLyrics =>
  Log.and_then (task_flag event SWEAR_LOG) (fun swearLog =>
  inr (mkFlags nowPlaying streamStatus updateRepo checkLyrics swearLog)))))).

(** [flag and clock % divisor == 0]: the modulo is not evaluated when the
    flag is zero, and raises when the divisor is zero. *)
Definition due (flag : N) (clock divisor : Z) : Py.exn + bool :=
  if N.eqb flag 0 then inr false
  else if Z.eqb divisor 0 then inl Py.ZeroDivisionError
  else inr (Z.eqb (clock mod divisor) 0).

(** The five [if] blocks of one iteration, in the order of the source:
    the clocks after them and the tasks spawned. *)
Definition trigger_events (fl : Flags) (frequency : Z) (c : Clocks)
  : Py.exn + (Clocks * list Task) :=
  let spawned : list Task := [] in
  Log.and_then (due (nowPlaying fl) (nowPlayingClock c) (frequency * 2)) (fun fire =>
  let '(c, spawned) :=
    if fire
    then (mkClocks 1 (streamStatusClock c) (updateRepoClock c) (checkLyricsClock c) (swearLogClock c),
          (spawned ++ [NowPlayingTask])%list)
    else (c, spawned) in
  Log.and_then (due (streamStatus fl) (streamStatusClock c) (frequency * 20)) (fun fire =>
  let '(c, spawned) :=
    if fire
    then (mkClocks (nowPlayingClock c) 1 (updateRepoClock c) (checkLyricsClock c) (swearLogClock c),
          (spawned ++ [StreamStatusTask])%list)
    else (c, spawned) in
  Log.and_then (due (checkLyrics fl) (checkLyricsClock c) frequency) (fun fire =>
  let '(c, spawned) :=
    if fire
    then (mkClocks (nowPlayingClock c) (streamStatusClock c) (updateRepoClock c) 1 (swearLogClock c),
          (spawned ++ [CheckLyricsTask])%list)
    else (c, spawned) in
  Log.and_then (due (swearLog fl) (swearLogClock c) frequency) (fun fire =>
  let '(c, spawned) :=
    if fire
    then (mkClocks (nowPlayingClock c) (streamStatusClock c) (updateRepoClock c) (checkLyricsClock c) 1,
          (spawned ++ [SwearLogTask])%list)
    else (c, spawned) in
  Log.and_then (due (updateRepo fl) (updateRepoClock c) (frequency * 1200)) (fun fire =>
  let '(c, spawned) :=
    if fire
    then (mkClocks (nowPlayingClock c) (streamStatusClock c) 1 (checkLyricsClock c) (swearLogClock c),
          (spawned ++ [UpdateRepoTask])%list)
    else (c, spawned) in
  inr (c, spawned)))))).

Definition advance (c : Clocks) : Clocks :=
  mkClocks (nowPlayingClock c + 1) (streamStatusClock c + 1) (updateRepoClock c + 1)
           (checkLyricsClock c + 1) (swearLogClock c + 1).

(** How a run of the scheduler stands after a number of iterations: it
    returned, it raised, or it is still looping. [trace] lists the tasks
    spawned so far with the iteration that spawned them. *)
Inductive run : Type :=
| Finished (w : World) (trace : list (nat * Task))
| Crashed (e : Py.exn) (w : World) (trace : list (nat * Task))
| StillRunning (c : Clocks) (w : World) (trace : list (nat * Task)).

Definition trace_of (r : run) : list (nat * Task) :=
  match r with
  | Finished _ t => t
  | Crashed _ _ t => t
  | StillRunning _ _ t => t
  end.

Definition crashed (r : run) : bool :=
  match r with
  | Crashed _ _ _ => true
  | _ => false
  end.

(** [spawn_task(self.python + " teqbot task " + option)] starts a process
    and does not wait for it: the loop only records which task it spawned;
    what the process does to the files is part of [env] below. *)
Section Scheduler.

(** [env k] is what the rest of the system (the tasks spawned so far, a
    [kill] command run from another shell) does to the world while the
    loop sleeps in iteration [k]. *)
Variable env : nat -> World -> World.

Fixpoint loop (fl : Flags) (frequency : Z) (fuel tick : nat)
              (c : Clocks) (w : World) (trace : list (nat * Task)) : run :=
  match fuel with
  | O => StillRunning c w trace
  | S fuel' =>
      match trigger_events fl frequency c with
      | inl e => Crashed e w trace
      | inr (c, spawned) =>
          let trace := (trace ++ map (pair tick) spawned)%list in
          let w := env tick w in
          let c := advance c in
          if check_stat_file "Done" w
          then Finished (delete_stat_file w) trace
          else loop fl frequency fuel' (S tick) c w trace
      end
  end.

(** [scheduler(event, frequency)], run for at most [fuel] iterations. *)
Definition scheduler (event : string) (frequency : Z) (fuel : nat) (w : World) : run :=
  let c := mkClocks 0 0 0 0 0 in
  let w := set_last_played "None" w in
  let w := set_stat_file "Running" w in
  let w := get_last_played w in
  match decode_flags event with
  | inl e => Crashed e w []
  | inr fl => loop fl frequency fuel 0 c w []
  end.

(** The world the loop finds when it wakes up in iteration [k], as long
    as it has not returned before. *)
Fixpoint world_at_poll (w : World) (k : nat) : World :=
  match k with
  | O => env 0 w
  | S k' => env k (world_at_poll w k')
  end.

End Scheduler.

(** The world the loop starts from. *)
Definition seeded (w : World) : World :=
  get_last_played (set_stat_file "Running" (set_last_played "None" w)).

End Teq.

(* ================================================================== *)
(** * __main__.py *)
(* ================================================================== *)

Module Main.

Definition NOW_PLAYING   : string := "00000001".
Definition STREAM_STATUS : string := "00000010".
Definition CHECK_LYRICS  : string := "00000100".
Definition SWEAR_LOG     : string := "00001000".
Definition UPDATE_REPO   : string := "10000000".

(** What [command_handler] does with the bot, besides printing. *)
Inductive action : Type :=
| PrintUsage
| PrintMessage (msg : option string)
| RunScheduler (event : string)   (* delete_stat_file(), then scheduler(event) *)
| RunTask (t : option Teq.Task)   (* one task body, once *)
| SetDone                         (* set_stat_file("Done") *)
| NoAction.

(** ["{0:b}".format( int(event, 2) | int(bit, 2) )]. *)
Definition or_bit (event bit : string) : Py.exn + string :=
  match Py.int_base 2 event with
  | None => inl Py.ValueError
  | Some e =>
      match Py.int_base 2 bit with
      | None => inl Py.ValueError
      | Some b => inr (Py.format_b (N.lor e b))
      end
  end.

(** The body of the [SCHEDULER] branch up to the call of the scheduler:
    the event string built from the options present in [args]. *)
Definition scheduler_event (args : list string) : Py.exn + string :=
  let event := "00000000" in
  Log.and_then
    (if Py.mem "--nowplaying" args || Py.mem "-n" args
     then or_bit event NOW_PLAYING else inr event) (fun event =>
  Log.and_then
    (if Py.mem "--status" args || Py.mem "-s" args
     then or_bit event STREAM_STATUS else inr event) (fun event =>
  Log.and_then
    (if Py.mem "--lyric" args || Py.mem "-l" args
     then or_bit event CHECK_LYRICS else inr event) (fun event =>
  Log.and_then
    (if Py.mem "--swear" args || Py.mem "-w" args
     then or_bit event SWEAR_LOG else inr event) (fun event =>
  Log.and_then
    (if Py.mem "--update" args || Py.mem "-u" args
     then or_bit event UPDATE_REPO else inr event) (fun event =>
  inr event))))).

Definition single_task (args : list string) : option Teq.Task :=
  if Py.mem "--nowplaying" args || Py.mem "-n" args then Some Teq.NowPlayingTask
  else if Py.mem "--status" args || Py.mem "-s" args then Some Teq.StreamStatusTask
  else if Py.mem "--lyric" args || Py.mem "-l" args then Some Teq.CheckLyricsTask
  else if Py.mem "--swear" args || Py.mem "-w" args then Some Teq.SwearLogTask
  else if Py.mem "--update" args || Py.mem "-u" args then Some Teq.UpdateRepoTask
  else None.

Definition command_handler (args : list string) : Py.exn + action :=
  match args with
  | [] => inl Py.IndexError
  | first :: rest =>
      let args := Py.upper first :: rest in
      if Py.mem "USAGE" args then inr PrintUsage
      else if Py.mem "MESSAGE" args then
        let indx := Py.index "MESSAGE" args in
        if (1 <? List.length args)%nat
        then inr (PrintMessage (Some (Py.join " " (skipn (indx + 1) args))))
        else inr (PrintMessage None)
      else if Py.mem "SCHEDULER" args then
        Log.and_then (scheduler_event args) (fun event => inr (RunScheduler event))
      else if Py.mem "TASK" args then inr (RunTask (single_task args))
      else if Py.mem "KILL" args then inr SetDone
      else inr NoAction
  end.

End Main.

(* ================================================================== *)
(** * Vocabulary of the specification *)
(* ================================================================== *)

Module Spec.

Import Teq.

Definition named_tasks : list Task :=
  [NowPlayingTask; StreamStatusTask; CheckLyricsTask; SwearLogTask; UpdateRepoTask].

(** The bit of a named flag in the task mask. *)
Definition bit_of (t : Task) : N :=
  match t with
  | NowPlayingTask => 1
  | StreamStatusTask => 2
  | CheckLyricsTask => 4
  | SwearLogTask => 8
  | UpdateRepoTask => 128
  end%N.

Definition short_option (t : Task) : string :=
  match t with
  | NowPlayingTask => "-n"
  | StreamStatusTask => "-s"
  | CheckLyricsTask => "-l"
  | SwearLogTask => "-w"
  | UpdateRepoTask => "-u"
  end.

(** A task mask composed of the named flags: the flags that are set. *)
Definition TaskMask : Type := Task -> bool.

Definition mask_value (m : TaskMask) : N :=
  fold_right (fun t acc => if m t then N.lor (bit_of t) acc else acc) 0%N named_tasks.

(** The tokens that encode a mask: for each flag that is set, its long
    or its short option, as [long] chooses. *)
Definition encode (long : Task -> bool) (m : TaskMask) : list string :=
  map (fun t => if long t then task_option t else short_option t)
      (filter m named_tasks).

(** A token the decoder knows. *)
Definition recognized (tok : string) : bool :=
  existsb (fun t => String.eqb tok (task_option t) || String.eqb tok (short_option t))
          named_tasks.

(** A word that selects another command wherever it stands in the
    arguments. *)
Definition command_word (tok : string) : bool :=
  String.eqb tok "USAGE" || String.eqb tok "MESSAGE".

(** The multiplier of the base frequency, per task. *)
Definition multiplier (t : Task) : Z :=
  match t with
  | NowPlayingTask => 2
  | StreamStatusTask => 20
  | CheckLyricsTask => 1
  | SwearLogTask => 1
  | UpdateRepoTask => 1200
  end.

Definition flag_of (fl : Flags) (t : Task) : N :=
  match t with
  | NowPlayingTask => nowPlaying fl
  | StreamStatusTask => streamStatus fl
  | CheckLyricsTask => checkLyrics fl
  | SwearLogTask => swearLog fl
  | UpdateRepoTask => updateRepo fl
  end.

Definition clock_of (c : Clocks) (t : Task) : Z :=
  match t with
  | NowPlayingTask => nowPlayingClock c
  | StreamStatusTask => streamStatusClock c
  | CheckLyricsTask => checkLyricsClock c
  | SwearLogTask => swearLogClock c
  | UpdateRepoTask => updateRepoClock c
  end.

Definition task_eqb (a b : Task) : bool :=
  match a, b with
  | NowPlayingTask, NowPlayingTask
  | StreamStatusTask, StreamStatusTask
  | CheckLyricsTask, CheckLyricsTask
  | SwearLogTask, SwearLogTask
  | UpdateRepoTask, UpdateRepoTask => true
  | _, _ => false
  end.

(** The divisor of a task: ticks per firing, as documented. *)
Definition divisor (frequency : Z) (t : Task) : Z := frequency * multiplier t.

(** Task [t] is enabled and its clock is a multiple of its divisor. *)
Definition fires_now (fl : Flags) (frequency : Z) (c : Clocks) (t : Task) : bool :=
  negb (N.eqb (flag_of fl t) 0) && Z.eqb (clock_of c t mod divisor frequency t) 0.

(** The number of iterations from one firing to the next that the loop
    realises for a divisor [d], and the clock of an enabled task at the
    start of iteration [k]. *)
Definition period (d : Z) : Z := Z.max 1 (d - 1).

Definition clock_at (d : Z) (k : nat) : Z :=
  match k with
  | O => 0
  | S k' => Z.of_nat k' mod period d + 2
  end.

(** The value of the binary digits of [p] read in base [b] after the
    digits already accumulated in [a]. *)
Fixpoint digits_value (b a : N) (p : positive) : N :=
  match p with
  | xH => a * b + 1
  | xO p' => digits_value b a p' * b
  | xI p' => digits_value b a p' * b + 1
  end%N.

(** The world the loop holds when it enters iteration [k]. *)
Definition world_entering (env : nat -> World -> World) (w : World) (k : nat) : World :=
  match k with
  | O => w
  | S k' => world_at_poll env w k'
  end.

(** Task [t] was spawned in iteration [k]. *)
Definition fired (trace : list (nat * Task)) (k : nat) (t : Task) : bool :=
  existsb (fun e => Nat.eqb (fst e) k && task_eqb (snd e) t) trace.

(** The iterations below [n] in which [t] was spawned. *)
Definition firings (trace : list (nat * Task)) (t : Task) (n : nat) : list nat :=
  filter (fun k => fired trace k t) (seq 0 n).

(** The messages a step added to the outbox. *)
Definition posted (before after : World) : list notification :=
  skipn (List.length (outbox before)) (outbox after).

(** The seven fields of a swear log, all present with string values. *)
Definition well_formed (data : Log.dict) : bool :=
  forallb (fun f => match Log.lookup f data with Some (Log.JStr _) => true | _ => false end)
          Log.fields.

(** All five requests of one stream-status call, starting at request
    [k], find the stream down / one of them finds it up. *)
Definition is_up (p : Stream.page) : bool := fst (Stream.ping_stream p).

Definition call_down (net : nat -> Stream.page) (k : nat) : bool :=
  forallb (fun i => negb (is_up (net i))) (seq k 5).

Definition call_up (net : nat -> Stream.page) (k : nat) : bool :=
  existsb (fun i => is_up (net i)) (seq k 5).

(** The two messages of the stream-status task, as posted from [w]: the
    diagnosis carries the answer to the fifth request of the call. *)
Definition diagnostic (net : nat -> Stream.page) (w : World) : notification :=
  mkNotification "engineering" (snd (Stream.ping_stream (net (probes w + 4))))
                 (username w) SKULL_EMOJI.

Definition back_online (w : World) : notification :=
  mkNotification "engineering" "The Stream is Back Online!" (username w) ROBOT_EMOJI.

(** Sample swear logs. *)
Definition sample_log (report : string) : Log.dict :=
  [("date", Log.JStr "2024-05-01"); ("time", Log.JStr "21:15");
   ("song title", Log.JStr "Beat Market"); ("song artist", Log.JStr "Sun Machine");
   ("song composer", Log.JStr "Sun Machine"); ("show name", Log.JStr "Night Shift");
   ("report", Log.JStr report)].

Definition reordered_log (report : string) : Log.dict :=
  [("report", Log.JStr report); ("show name", Log.JStr "Night Shift");
   ("date", Log.JStr "2024-05-01"); ("time", Log.JStr "21:15");
   ("song artist", Log.JStr "Sun Machine"); ("song title", Log.JStr "Beat Market");
   ("song composer", Log.JStr "Sun Machine")].

(** The bot in a logger directory holding the two JSON files. *)
Definition logger_world (data snap : Log.dict) : World :=
  mkWorld None None None (Some data) (Some snap)
          EmptyString "TEQ-BOT" ROBOT_EMOJI EmptyString None 0 [] [].

End Spec.

(* ================================================================== *)
(** * More Python string primitives *)
(* ================================================================== *)

Module PyStr.

(** The characters [str.strip()] and [str.split()] treat as whitespace,
    among the ASCII ones: tab to carriage return, the four separators
    28 to 31, and the space. *)
Definition is_space (c : ascii) : bool :=
  let n := nat_of_ascii c in
  ((9 <=? n)%nat && (n <=? 13)%nat) || ((28 <=? n)%nat && (n <=? 32)%nat).

Fixpoint lstrip (s : string) : string :=
  match s with
  | EmptyString => EmptyString
  | String c s' => if is_space c then lstrip s' else s
  end.

Fixpoint rstrip (s : string) : string :=
  match s with
  | EmptyString => EmptyString
  | String c s' =>
      match rstrip s' with
      | EmptyString => if is_space c then EmptyString else String c EmptyString
      | r => String c r
      end
  end.

(** [s.strip()]. *)
Definition strip (s : string) : string := lstrip (rstrip s).

(** [s.strip(chars)]. *)
Definition one_of (chars : string) (c : ascii) : bool :=
  existsb (Ascii.eqb c) (list_ascii_of_string chars).

Fixpoint lstrip_chars (chars s : string) : string :=
  match s with
  | EmptyString => EmptyString
  | String c s' => if one_of chars c then lstrip_chars chars s' else s
  end.

Fixpoint rstrip_chars (chars s : string) : string :=
  match s with
  | EmptyString => EmptyString
  | String c s' =>
      match rstrip_chars chars s' with
      | EmptyString => if one_of chars c then EmptyString else String c EmptyString
      | r => String c r
      end
  end.

Definition strip_chars (chars s : string) : string :=
  lstrip_chars chars (rstrip_chars chars s).

(** [str.lower], on ASCII letters. *)
Definition lower_ascii (c : ascii) : ascii :=
  let n := nat_of_ascii c in
  if (65 <=? n)%nat && (n <=? 90)%nat then ascii_of_nat (n + 32) else c.

Fixpoint lower (s : string) : string :=
  match s with
  | EmptyString => EmptyString
  | String c s' => String (lower_ascii c) (lower s')
  end.

(** [s[n:]]. *)
Fixpoint skip (n : nat) (s : string) : string :=
  match n, s with
  | S k, String _ s' => skip k s'
  | _, _ => s
  end.

(** The first occurrence of a non-empty [sep] in [s]: what stands before
    it and what stands after it. *)
Fixpoint split_once (sep s : string) : option (string * string) :=
  match s with
  | EmptyString => None
  | String c s' =>
      if prefix sep s then Some (EmptyString, skip (String.length sep) s)
      else
        match split_once sep s' with
        | Some (before, after) => Some (String c before, after)
        | None => None
        end
  end.

(** [s.split(sep, 1)] for a non-empty [sep]. *)
Definition split1 (sep s : string) : list string :=
  match split_once sep s with
  | Some (before, after) => [before; after]
  | None => [s]
  end.

(** [sub in s]. *)
Fixpoint contains (sub s : string) : bool :=
  match s with
  | EmptyString => prefix sub s
  | String _ s' => prefix sub s || contains sub s'
  end.

(** [s.count(sub)] for a non-empty [sub]: occurrences counted left to
    right without overlap; [skipped] counts the characters of a match that
    are still to be passed. *)
Fixpoint count_from (sub : string) (skipped : nat) (s : string) : nat :=
  match s with
  | EmptyString => 0
  | String _ s' =>
      match skipped with
      | S k => count_from sub k s'
      | O =>
          if prefix sub s
          then S (count_from sub (String.length sub - 1) s')
          else count_from sub 0 s'
      end
  end.

Definition count (sub s : string) : nat := count_from sub 0 s.

(** [s.split()]: the maximal runs of characters that are not whitespace;
    [cur] is the run being read. *)
Fixpoint words_from (cur s : string) : list string :=
  match s with
  | EmptyString => match cur with EmptyString => [] | _ => [cur] end
  | String c s' =>
      if is_space c then
        match cur with
        | EmptyString => words_from EmptyString s'
        | _ => cur :: words_from EmptyString s'
        end
      else words_from (cur ++ String c EmptyString) s'
  end.

Definition split_whitespace (s : string) : list string := words_from EmptyString s.

(** [str(n)] for a natural number. *)
Definition str_of_nat (n : nat) : string := NilZero.string_of_uint (Nat.to_uint n).

(** [urllib.parse.quote_plus(s)] on a string, byte by byte: letters,
    digits and [_.-~] stay, the space becomes [+], any other byte is
    written [%XX]. *)
Definition unreserved (c : ascii) : bool :=
  let n := nat_of_ascii c in
  ((48 <=? n)%nat && (n <=? 57)%nat) || ((65 <=? n)%nat && (n <=? 90)%nat) ||
  ((97 <=? n)%nat && (n <=? 122)%nat) ||
  one_of "_.-~" c.

Definition hex_digit (n : nat) : ascii :=
  nth n (list_ascii_of_string "0123456789ABCDEF") "0"%char.

Definition quote_byte (c : ascii) : string :=
  if unreserved c then String c EmptyString
  else if Ascii.eqb c " " then "+"
  else String "%" (String (hex_digit (nat_of_ascii c / 16))
                          (String (hex_digit (nat_of_ascii c mod 16)) EmptyString)).

Fixpoint quote_plus (s : string) : string :=
  match s with
  | EmptyString => EmptyString
  | String c s' => quote_byte c ++ quote_plus s'
  end.

End PyStr.

(* ================================================================== *)
(** * tunein.py *)
(* ================================================================== *)

Module Tunein.

(** [parseMetadata]: the artist is [None] when the separator is absent,
    and [quote_plus(None)] raises [TypeError]. *)
Definition parseMetadata (metadata : string) : Py.exn + (string * string) :=
  let split := PyStr.split1 "__by__" metadata in
  let song := PyStr.lstrip (PyStr.rstrip (nth 0 split EmptyString)) in
  let artist :=
    if (1 <? List.length split)%nat
    then Some (PyStr.lstrip (PyStr.rstrip (nth 1 split EmptyString)))
    else None in
  let fullsong := PyStr.split1 "#NowPlaying: " song in
  let song :=
    if (1 <? List.length fullsong)%nat
    then nth 1 fullsong EmptyString
    else nth 0 fullsong EmptyString in
  let song := PyStr.quote_plus song in
  match artist with
  | None => inl Py.TypeError
  | Some artist => inr (song, PyStr.quote_plus artist)
  end.

(** [post]: the URL of the GET request it sends. *)
Definition post (sID pID pKey metadata : string) : Py.exn + string :=
  Log.and_then (parseMetadata metadata) (fun parsed =>
  let song := fst parsed in
  let artist := snd parsed in
  let msg := "http://air.radiotime.com/Playing.ashx?partnerId=" ++ pID in
  let msg := msg ++ "&partnerKey=" ++ pKey in
  let msg := msg ++ "&id=" ++ sID in
  let msg := msg ++ "&title=" ++ song in
  let msg := if Py.truthy artist then msg ++ "&artist=" ++ artist else msg in
  inr msg).

End Tunein.

(* ================================================================== *)
(** * slack.py *)
(* ================================================================== *)

Module Slack.

(** One entry of the answer to [channels.list]. *)
Record channel : Type := mkChannel {
  name : string;
  id : string
}.

(** The answer of the API to one call: [ok] with its payload, or the
    error it names. *)
Inductive answer (A : Type) : Type :=
| ApiOk (payload : A)
| ApiError (error : string).
Arguments ApiOk {A} payload.
Arguments ApiError {A} error.

(** [get_channels]: the list, or [None] when the call is not [ok]. *)
Definition get_channels (channels_call : answer (list channel)) : option (list channel) :=
  match channels_call with
  | ApiOk channels => Some channels
  | ApiError _ => None
  end.

(** [for c in channels: if c[key] == wanted: return c[value]]. *)
Fixpoint first_match (key value : channel -> string) (wanted : string)
         (channels : list channel) : option string :=
  match channels with
  | [] => None
  | c :: rest =>
      if String.eqb (key c) wanted then Some (value c)
      else first_match key value wanted rest
  end.

(** Iterating over [None] raises [TypeError]. *)
Definition get_channel_id (channels_call : answer (list channel)) (channel_name : string)
  : Py.exn + option string :=
  match get_channels channels_call with
  | None => inl Py.TypeError
  | Some channels => inr (first_match name id channel_name channels)
  end.

(** The id may be [None]: no entry has it. *)
Definition get_channel_name (channels_call : answer (list channel))
           (channel_id : option string) : Py.exn + option string :=
  match get_channels channels_call with
  | None => inl Py.TypeError
  | Some channels =>
      match channel_id with
      | Some i => inr (first_match id name i channels)
      | None => inr None
      end
  end.

(** [send_message], given the answer to [chat.postMessage] and the
    answer to the [channels.list] call that follows a success. *)
Definition send_message (post_call : answer unit) (channels_call : answer (list channel))
           (channel_id : option string) (message username emoji : string)
  : Py.exn + (bool * string) :=
  match post_call with
  | ApiOk _ =>
      Log.and_then (get_channel_name channels_call channel_id) (fun channel_name =>
      let slack_msg := "User " ++ username ++ Py.nl ++ "sent message: " in
      match channel_name with
      | None => inl Py.TypeError
      | Some channel_name =>
          let slack_msg := slack_msg ++ message ++ Py.nl ++ " to channel #" ++ channel_name in
          let slack_msg := slack_msg ++ Py.nl ++ " with emoji " ++ emoji in
          inr (true, slack_msg)
      end)
  | ApiError error =>
      inr (false, "slack.send_message() error: message failed to send. | " ++ error)
  end.

End Slack.

(* ================================================================== *)
(** * genius.py *)
(* ================================================================== *)

Module Genius.

Definition SONG_HAS_SWEARS : Z := 0.
Definition SONG_SWEAR_FREE : Z := 1.
Definition SONG_NOT_FOUND  : Z := 2.

(** The answer of a profanity test: its code and the words it found. *)
Definition test_result : Type := (Z * list string)%type.

(** [load_profanity], on the lines of the file as [readlines] gives
    them. *)
Definition load_profanity (lines : list string) : list string :=
  map PyStr.strip lines.

(** [clean_test_01], on the text of the answer of the web service. *)
Definition clean_test_01 (response_text : string) : test_result :=
  if PyStr.contains "true" response_text then (SONG_HAS_SWEARS, [])
  else if PyStr.contains "false" response_text then (SONG_SWEAR_FREE, [])
  else (SONG_NOT_FOUND, []).

Definition test_code (code : Z) (number : nat) : string :=
  if Z.eqb code SONG_HAS_SWEARS then "FAIL Profanity Test #" ++ PyStr.str_of_nat number
  else if Z.eqb code SONG_SWEAR_FREE then "PASS Profanity Test #" ++ PyStr.str_of_nat number
  else "Song Lyrics Not Found".

(** The loop of [evaluate_tests]: [i], [swears] and [msg] are the
    variables of the same names. [swears] is only ever assigned in the
    branch of a failed test. *)
Fixpoint evaluate_from (i : nat) (swears msg : string) (results : list test_result) : string :=
  match results with
  | [] => msg
  | test :: rest =>
      let code := test_code (fst test) i in
      let swears :=
        if Z.eqb (fst test) SONG_HAS_SWEARS then
          if (1 <? i)%nat
          then " Song Contains: " ++ Py.join ", " (snd test)
          else " Song May Contain Swears, Check other Tests"
        else swears in
      let msg := msg ++ code ++ swears ++ Py.nl in
      evaluate_from (i + 1) swears msg rest
  end.

Definition evaluate_tests (results : list test_result) : string :=
  evaluate_from 1 EmptyString EmptyString results.

Definition generate_report (song artist lyrics : string) (result : list test_result) : string :=
  let msg := EmptyString in
  let msg := msg ++ "Song   Name: " ++ song ++ Py.nl in
  let msg := msg ++ "Song Artist: " ++ artist ++ Py.nl ++ Py.nl in
  let msg := msg ++ evaluate_tests result ++ Py.nl ++ Py.nl in
  let msg := msg ++ "Song Lyrics: " in
  msg ++ lyrics.

Section Network.

(** The stemmer of [nltk], the web service of the first test (the text
    it answers for given lyrics), the search of [get_api_path] (the path,
    or [None]) and the page read by [get_lyrics]; each of the three
    requests may raise. *)
Variable stem : string -> string.
Variable wdylike : string -> Py.exn + string.
Variable get_api_path : string -> string -> Py.exn + option string.
Variable get_lyrics : string -> Py.exn + string.

(** The loop of [clean_test_02] over the tokens. *)
Fixpoint bad_words_found (tokens bad_words : list string) : list string :=
  match tokens with
  | [] => []
  | word :: rest =>
      let w := PyStr.lower (PyStr.strip_chars "!,.?" word) in
      if Py.mem (stem w) bad_words
      then w :: bad_words_found rest bad_words
      else bad_words_found rest bad_words
  end.

Definition clean_test_02 (lyrics : string) (bad_words : list string) : test_result :=
  let tokens := PyStr.split_whitespace lyrics in
  let bad_found := bad_words_found tokens bad_words in
  if (0 <? List.length bad_found)%nat
  then (SONG_HAS_SWEARS, bad_found)
  else (SONG_SWEAR_FREE, bad_found).

Definition run_tests (lyrics : string) (bad_words : list string)
  : Py.exn + list test_result :=
  Log.and_then (wdylike lyrics) (fun response_text =>
  inr [clean_test_01 response_text; clean_test_02 lyrics bad_words]).

Definition run (song artist : string) (bad_words : list string)
  : Py.exn + (string * bool) :=
  Log.and_then (get_api_path song artist) (fun api_path =>
  match api_path with
  | Some path =>
      Log.and_then (get_lyrics path) (fun lyrics =>
      Log.and_then (run_tests lyrics bad_words) (fun result =>
      let report := generate_report song artist lyrics result in
      if (1 <? PyStr.count "FAIL" report)%nat
      then inr (report, false)
      else inr (report, true)))
  | None => inr ("Song Lyrics Not Found", true)
  end).

End Network.

End Genius.

(* ================================================================== *)
(** * teq.py, the lyric check and the metadata helpers *)
(* ================================================================== *)

Module TeqLyrics.

Import Teq.

Definition split_metadata (metadata : string) : string * string :=
  let split := PyStr.split1 "__by__" metadata in
  let song := PyStr.lstrip (PyStr.rstrip (nth 0 split EmptyString)) in
  let artist :=
    if (1 <? List.length split)%nat
    then PyStr.lstrip (PyStr.rstrip (nth 1 split EmptyString))
    else EmptyString in
  (song, artist).

(** The files of the logger directory the lyric check uses ([None]: no
    such file); the profanity list is kept as its lines. *)
Record Logger : Type := mkLogger {
  nowPlaying_txt : option string;
  profanity_txt : option (list string);
  lyrics_txt : option string
}.

(** The bot with its working directory, and the logger directory. *)
Record Station : Type := mkStation {
  bot : World;
  logger : Logger
}.

Inductive result : Type :=
| Returned (s : Station)
| Raised (e : Py.exn) (s : Station).

Definition station_of (r : result) : Station :=
  match r with
  | Returned s => s
  | Raised _ s => s
  end.

Definition get_now_playing_logger (s : Station) : Py.exn + string :=
  match nowPlaying_txt (logger s) with
  | Some content => inr content
  | None => inl Py.FileNotFoundError
  end.

Definition get_profanity (s : Station) : Py.exn + list string :=
  match profanity_txt (logger s) with
  | Some lines => inr (Genius.load_profanity lines)
  | None => inl Py.FileNotFoundError
  end.

Definition post_lyrics (lyrics : string) (s : Station) : Station :=
  mkStation (bot s)
            (mkLogger (nowPlaying_txt (logger s)) (profanity_txt (logger s)) (Some lyrics)).

Definition warning (msg : string) : string :=
  let warning_msg := EmptyString in
  let warning_msg := warning_msg ++ "Warning! Song Currently Playing On KTEQ " in
  let warning_msg := warning_msg ++ "may contain swears. Generating Report..." ++ Py.nl in
  warning_msg ++ "```" ++ msg ++ "```".

Section LyricCheck.

(** [genius.run] with the token of the bot, as a function of the song,
    the artist and the profanity list. *)
Variable genius_run : string -> string -> list string -> Py.exn + (string * bool).

Definition task_check_lyrics (s : Station) : result :=
  match get_now_playing_logger s with
  | inl e => Raised e s
  | inr np =>
      let last := get_last_lyric (bot s) in
      if negb (String.eqb np last) then
        let s := mkStation (set_last_lyric np (bot s)) (logger s) in
        let song := fst (split_metadata np) in
        let artist := snd (split_metadata np) in
        match get_profanity s with
        | inl e => Raised e s
        | inr bad_words =>
            match genius_run song artist bad_words with
            | inl e => Raised e s
            | inr (msg, clean) =>
                let s :=
                  if negb clean
                  then mkStation
                         (world_of (teq_message (warning msg) "engineering" SKULL_EMOJI (bot s)))
                         (logger s)
                  else s in
                Returned (post_lyrics msg s)
            end
        end
      else Returned s
  end.

End LyricCheck.

Section Songs.

Variable net : nat -> Stream.page.

(** [compare_songs]: the in-memory variant of the song check. *)
Definition compare_songs : M bool :=
  check <- get_now_playing net ;;
  last <- gets lastSong ;;
  if negb (String.eqb last check) then
    modify (set_last_song check) ;;;
    ret true
  else ret false.

End Songs.

End TeqLyrics.

(* ================================================================== *)
(** * teq.py, the now-playing task with the TuneIn call carried out *)
(* ================================================================== *)

Module TeqTunein.

Import Teq.

(** The TuneIn credentials of the bot. *)
Record Keys : Type := mkKeys {
  tuneinStationID : string;
  tuneinPartnerID : string;
  tuneinPartnerKey : string
}.

Section Posting.

Variable keys : Keys.
Variable net : nat -> Stream.page.

(** [TeqBot.tunein] with the body of [tunein.post]: an exception of
    [parseMetadata] comes through, before any request; otherwise the
    request is sent and the metadata is recorded. *)
Definition tunein (metadata : string) : M unit :=
  fun w =>
    match Tunein.post (tuneinStationID keys) (tuneinPartnerID keys)
                      (tuneinPartnerKey keys) metadata with
    | inl e => Raise e w
    | inr _ => Teq.tunein metadata w
    end.

Definition task_now_playing : M unit :=
  modify get_last_played ;;;
  _ <- get_now_playing net ;;
  newsong <- check_last_played net ;;
  if newsong then
    song <- gets lastSong ;;
    teq_message (now_playing song) "nowplaying" MUSIC_EMOJI ;;;
    song <- gets lastSong ;;
    tunein song
  else ret tt.

End Posting.

End TeqTunein.

(* ================================================================== *)
(** * teq.py, [teq_message] with the Slack calls carried out *)
(* ================================================================== *)

Module TeqSlack.

Import Teq.

Section Workspace.

(** The answers of the Slack API while one message is sent: the answer to
    the [k]-th [channels.list] call, and the answer to [chat.postMessage]
    for a channel id and a text. *)
Variable channels_call : nat -> Slack.answer (list Slack.channel).
Variable post_call : option string -> string -> Slack.answer unit.

(** [set_channel]: [self.channel] takes the id of the channel, [None]
    when no channel has the name. *)
Definition set_channel (name : string) : M unit :=
  fun w =>
    match Slack.get_channel_id (channels_call 0) name with
    | inl e => Raise e w
    | inr i => Ok tt (with_channel i w)
    end.

(** [send_message]: the outbox takes the message when the post is
    accepted; the message is cleared when [slack.send_message] returns. *)
Definition send_message : M (bool * string) :=
  fun w =>
    let call := post_call (channel w) (message w) in
    let sent := mkNotification (channel_name w) (message w) (username w) (emoji w) in
    let w' :=
      match call with
      | Slack.ApiOk _ => with_outbox (outbox w ++ [sent]) w
      | Slack.ApiError _ => w
      end in
    match Slack.send_message call (channels_call 1) (channel w) (message w)
                             (username w) (emoji w) with
    | inl e => Raise e w'
    | inr r => Ok r (set_message EmptyString w')
    end.

Definition teq_message (msg chan emo : string) : M unit :=
  modify (set_emoji emo) ;;;
  modify (set_message msg) ;;;
  set_channel chan ;;;
  _ <- send_message ;;
  modify (set_emoji ROBOT_EMOJI).

End Workspace.

End TeqSlack.

(* ================================================================== *)
(** * Vocabulary of the further properties *)
(* ================================================================== *)

Module Vocab.

Import Teq.

(** An option of task [t], long or short, occurs in [args]. *)
Definition present (args : list string) (t : Task) : bool :=
  Py.mem (task_option t) args || Py.mem (Spec.short_option t) args.

(** Task [t] is enabled by the mask [m]. *)
Definition enabled (m : N) (t : Task) : bool :=
  negb (N.eqb (N.land m (Spec.bit_of t)) 0).

(** The five named bits of a mask; the other three are reserved. *)
Definition named_bits (m : N) : N := N.land m 143.

(** The environment in which nothing but the loop touches the files. *)
Definition quiet : nat -> World -> World := fun _ w => w.

(** The scheduler has returned. *)
Definition finished (r : run) : bool :=
  match r with
  | Finished _ _ => true
  | _ => false
  end.

(** The values two dicts hold under one key agree: both absent, or both
    present and equal for Python. *)
Definition same_value (x y : option Log.jvalue) : bool :=
  match x, y with
  | Some v, Some v' => Log.py_eq v v'
  | None, None => true
  | _, _ => false
  end.

(** A word that makes the handler take a branch before the task branch. *)
Definition earlier_command (tok : string) : bool :=
  String.eqb tok "USAGE" || String.eqb tok "MESSAGE" || String.eqb tok "SCHEDULER".

(** Every character of [s] satisfies [p]. *)
Fixpoint all_chars (p : ascii -> bool) (s : string) : bool :=
  match s with
  | EmptyString => true
  | String c s' => p c && all_chars p s'
  end.

(** [c] does not occur in [s]. *)
Definition no_char (c : ascii) (s : string) : bool :=
  all_chars (fun x => negb (Ascii.eqb x c)) s.

(** The characters a quoted query value is made of. *)
Definition url_safe (c : ascii) : bool :=
  PyStr.unreserved c || Ascii.eqb c "+" || Ascii.eqb c "%".

(** [s] neither starts nor ends with whitespace. *)
Definition stripped (s : string) : Prop :=
  PyStr.lstrip s = s /\ PyStr.rstrip s = s.

End Vocab.

(* ================================================================== *)
(** * Properties *)
(* ================================================================== *)

Import Teq.

(** Unfolds a task body and the world operations under it, leaving the
    strings and the stream answers folded. *)
Ltac run_task :=
  cbv [task_now_playing check_last_played get_now_playing ping_stream
       task_stream_status task_swear_log teq_message tunein
       bind ret gets modify lift
       get_last_played set_last_played set_last_song get_last_lyric
       set_emoji set_message set_channel send_message channel_name
       set_stat_file check_stat_file
       with_song_file with_lyric_file with_stat_file with_lastSwear_json
       with_lastSong with_emoji with_message with_channel with_probes
       with_outbox with_tunein_posts
       song_file lyric_file stat_file swear_json lastSwear_json lastSong
       username emoji message channel probes outbox tunein_posts].

(** ** Shared facts *)

Lemma skipn_length_app {A : Type} (l1 l2 : list A) :
  skipn (List.length l1) (l1 ++ l2)%list = l2.
Proof.
  induction l1 as [|x xs IH]; simpl; auto.
Qed.

Lemma posted_app (w w' : World) (l : list notification) :
  outbox w' = (outbox w ++ l)%list -> Spec.posted w w' = l.
Proof.
  intros H. unfold Spec.posted. rewrite H. apply skipn_length_app.
Qed.

Lemma posted_same (w w' : World) :
  outbox w' = outbox w -> Spec.posted w w' = [].
Proof.
  intros H. apply posted_app. rewrite H. symmetry. apply app_nil_r.
Qed.

(** What the stream answers is never the empty string nor the sentinel:
    it starts with the tag or with the alert. *)
Lemma ping_message_head (p : Stream.page) :
  exists c rest,
    snd (Stream.ping_stream p) = String c rest /\ c <> "N"%char.
Proof.
  destruct p as [| |text].
  - eexists; eexists; split; [vm_compute; reflexivity | discriminate].
  - eexists; eexists; split; [vm_compute; reflexivity | discriminate].
  - exists "#"%char. eexists. split; [reflexivity | discriminate].
Qed.

Lemma ping_message_not_sentinel (p : Stream.page) :
  String.eqb "None" (snd (Stream.ping_stream p)) = false.
Proof.
  destruct (ping_message_head p) as (c & rest & -> & Hc).
  apply String.eqb_neq. intros E. inversion E. congruence.
Qed.

Lemma ping_message_not_empty (p : Stream.page) :
  String.eqb (snd (Stream.ping_stream p)) EmptyString = false.
Proof.
  destruct (ping_message_head p) as (c & rest & -> & _). reflexivity.
Qed.

(** ** Durable markers *)

(** C7, as the code has it: reading a missing song or lyric marker
    yields the empty string and cannot raise; a missing status file has no
    default value, every comparison against it answers [false], also the
    one against Running; the swear snapshot has no default either, reading
    it when its file is missing raises. *)
Theorem missing_marker_defaults (w : World) :
  (song_file w = None -> lastSong (get_last_played w) = EmptyString) /\
  (lyric_file w = None -> get_last_lyric w = EmptyString) /\
  (stat_file w = None -> forall check, check_stat_file check w = false) /\
  (lastSwear_json w = None ->
   Log.read_json (lastSwear_json w) = inl Py.FileNotFoundError).
Proof.
  unfold get_last_played, get_last_lyric, check_stat_file.
  repeat split; intros H; try intros check; rewrite H; reflexivity.
Qed.

Lemma missing_marker_defaults_witness :
  lastSong (get_last_played init_world) = EmptyString /\
  get_last_lyric init_world = EmptyString /\
  check_stat_file "Running" init_world = false.
Proof.
  destruct (missing_marker_defaults init_world) as (Hs & Hl & Hc & _).
  split; [apply Hs; reflexivity | split; [apply Hl; reflexivity | apply Hc; reflexivity]].
Defined.

(** C7, the claim as stated fails: with no status file the comparison
    against Running does not succeed, and with no snapshot file the read of
    the snapshot raises. *)
Lemma missing_stat_file_is_not_running :
  stat_file init_world = None /\
  check_stat_file "Running" init_world <> true /\
  lastSwear_json init_world = None /\
  Log.read_json (lastSwear_json init_world) = inl Py.FileNotFoundError.
Proof.
  split; [reflexivity|]. split; [discriminate|]. split; reflexivity.
Qed.

(** ** SongChange *)

(** The marker holds the sentinel: the task posts the current track,
    whatever it is, and stores it. *)
Lemma now_playing_on_sentinel (net : nat -> Stream.page) (w : World) :
  song_file w = Some "None" ->
  let track := snd (Stream.ping_stream (net (S (probes w)))) in
  exists w1,
    task_now_playing net w = Ok tt w1 /\
    outbox w1 = (outbox w ++
      [mkNotification "nowplaying" (now_playing track) (username w) MUSIC_EMOJI])%list /\
    tunein_posts w1 = (tunein_posts w ++ [track])%list /\
    song_file w1 = Some track /\
    probes w1 = S (S (probes w)).
Proof.
  intros H track. destruct w. simpl in *. subst song_file0.
  eexists. split; [run_task; reflexivity|].
  simpl. repeat split; reflexivity.
Qed.

(** The marker holds the track the stream reports: nothing is posted and
    the marker stays. *)
Lemma now_playing_on_same_track (net : nat -> Stream.page) (w : World) :
  song_file w = Some (snd (Stream.ping_stream (net (S (probes w))))) ->
  exists w1,
    task_now_playing net w = Ok tt w1 /\
    outbox w1 = outbox w /\
    tunein_posts w1 = tunein_posts w /\
    song_file w1 = song_file w /\
    probes w1 = S (S (probes w)).
Proof.
  intros H. destruct w. simpl in *. subst song_file0.
  eexists. split.
  - run_task.
    rewrite String.eqb_sym, ping_message_not_sentinel.
    rewrite String.eqb_refl. simpl. reflexivity.
  - simpl. repeat split; reflexivity.
Qed.

(** The marker holds the empty string: the task posts, since the stream
    never reports an empty track. *)
Lemma now_playing_on_empty_marker (net : nat -> Stream.page) (w : World) :
  song_file w = Some EmptyString ->
  let track := snd (Stream.ping_stream (net (S (probes w)))) in
  exists w1,
    task_now_playing net w = Ok tt w1 /\
    outbox w1 = (outbox w ++
      [mkNotification "nowplaying" (now_playing track) (username w) MUSIC_EMOJI])%list.
Proof.
  intros H track. destruct w. simpl in *. subst song_file0.
  eexists. split.
  - run_task. rewrite ping_message_not_empty. simpl. reflexivity.
  - reflexivity.
Qed.

Lemma now_playing_steady (net : nat -> Stream.page) (track : string) (n : nat) :
  forall w,
    song_file w = Some track ->
    (forall k, (probes w <= k)%nat -> snd (Stream.ping_stream (net k)) = track) ->
    exists w2,
      repeat_task n (task_now_playing net) w = Ok tt w2 /\
      outbox w2 = outbox w /\
      tunein_posts w2 = tunein_posts w /\
      song_file w2 = Some track.
Proof.
  induction n as [|n IH]; intros w Hs Hn.
  - exists w. repeat split; auto.
  - destruct (now_playing_on_same_track net w) as (w1 & E1 & Ho & Ht & Hf & Hp).
    { rewrite Hs. f_equal. symmetry. apply Hn. lia. }
    destruct (IH w1) as (w2 & E2 & Ho2 & Ht2 & Hf2).
    { congruence. }
    { intros k Hk. apply Hn. lia. }
    exists w2. split.
    + simpl. unfold bind at 1. rewrite E1. exact E2.
    + repeat split; congruence.
Qed.



(** C10: when the song marker file does not exist, the SongChange task
    posts nothing, hands nothing to the metadata publisher and leaves the
    marker absent (and every other file as it was), whatever the stream
    reports; with the sentinel or the empty string in the marker the same
    invocation posts one notification. *)
Theorem missing_song_marker_is_silent (net : nat -> Stream.page) (w : World) :
  song_file w = None ->
  (exists w1,
     task_now_playing net w = Ok tt w1 /\
     Spec.posted w w1 = [] /\
     tunein_posts w1 = tunein_posts w /\
     song_file w1 = None /\
     lyric_file w1 = lyric_file w /\
     stat_file w1 = stat_file w /\
     swear_json w1 = swear_json w /\
     lastSwear_json w1 = lastSwear_json w) /\
  (forall marker,
     marker = "None" \/ marker = EmptyString ->
     let w' := set_last_played marker w in
     List.length (Spec.posted w' (world_of (task_now_playing net w'))) = 1%nat).
Proof.
  intros H. split.
  - destruct w. simpl in *. subst song_file0.
    eexists. split; [run_task; reflexivity|].
    split; [apply posted_same; reflexivity|].
    simpl. repeat split; reflexivity.
  - intros marker [-> | ->] w'.
    + destruct (now_playing_on_sentinel net w' eq_refl) as (w1 & E & Ho & _).
      rewrite E. simpl. rewrite (posted_app _ _ _ Ho). reflexivity.
    + destruct (now_playing_on_empty_marker net w' eq_refl) as (w1 & E & Ho).
      rewrite E. simpl. rewrite (posted_app _ _ _ Ho). reflexivity.
Qed.

Lemma missing_song_marker_is_silent_witness :
  let net := fun _ : nat => Stream.LastCell "Beat Market __by__ Sun Machine" in
  exists w1,
    task_now_playing net init_world = Ok tt w1 /\
    Spec.posted init_world w1 = [] /\
    tunein_posts w1 = [] /\
    song_file w1 = None.
Proof.
  intros net.
  destruct (missing_song_marker_is_silent net init_world eq_refl)
    as ((w1 & E & Hp & Ht & Hf & _) & _).
  exists w1. repeat split; assumption.
Defined.

(** ** StreamHealth *)

(** The five attempts only count requests; they succeed as soon as one
    request finds the stream up, and otherwise end on the fifth answer. *)
Lemma probe_loop_spec (net : nat -> Stream.page) (n : nat) :
  forall last w,
  exists r j,
    probe_loop net n last w = Ok r (with_probes j w) /\
    (probes w <= j)%nat /\
    (existsb (fun i => Spec.is_up (net i)) (seq (probes w) n) = true -> fst r = true) /\
    (forallb (fun i => negb (Spec.is_up (net i))) (seq (probes w) n) = true ->
     r = match n with
         | O => last
         | S k => Stream.ping_stream (net (probes w + k))
         end).
Proof.
  induction n as [|n IH]; intros last w.
  - exists last, (probes w). split; [destruct w; reflexivity|].
    split; [lia|]. split; [discriminate | reflexivity].
  - cbn [probe_loop]. unfold bind at 1. unfold ping_stream at 1.
    destruct (fst (Stream.ping_stream (net (probes w)))) eqn:Hup.
    + exists (Stream.ping_stream (net (probes w))), (S (probes w)).
      split; [reflexivity|]. split; [lia|]. split; [intros _; exact Hup|].
      cbn [seq forallb]. unfold Spec.is_up at 1. rewrite Hup. discriminate.
    + destruct (IH (Stream.ping_stream (net (probes w))) (with_probes (S (probes w)) w))
        as (r & j & E & Hj & Hex & Hall).
      exists r, j. split; [rewrite E; reflexivity|].
      cbn [probes with_probes] in *. split; [lia|].
      cbn [seq existsb forallb]. unfold Spec.is_up at 1 3. rewrite Hup. cbn [orb negb andb].
      split; [exact Hex|]. intros H. rewrite (Hall H).
      destruct n as [|k]; [rewrite Nat.add_0_r; reflexivity|].
      f_equal. f_equal. lia.
Qed.

Lemma stream_status_down (net : nat -> Stream.page) (w : World) :
  Spec.call_down net (probes w) = true ->
  exists w1,
    task_stream_status net w = Ok tt w1 /\
    outbox w1 = (outbox w ++ [Spec.diagnostic net w])%list /\
    stat_file w1 = Some "Stream Down" /\
    username w1 = username w.
Proof.
  intros H. unfold task_stream_status. unfold bind at 1.
  destruct (probe_loop_spec net 5 (false, EmptyString) w) as (r & j & E & _ & _ & Hall).
  rewrite E. rewrite (Hall H).
  assert (Hlast : fst (Stream.ping_stream (net (probes w + 4))) = false).
  { unfold Spec.call_down in H. rewrite forallb_forall in H.
    specialize (H (probes w + 4)%nat). apply negb_true_iff. apply H.
    apply in_seq. lia. }
  rewrite Hlast. destruct w. eexists. split; [run_task; reflexivity|].
  simpl. repeat split; reflexivity.
Qed.

Lemma stream_status_up (net : nat -> Stream.page) (w : World) :
  Spec.call_up net (probes w) = true ->
  exists w1,
    task_stream_status net w = Ok tt w1 /\
    username w1 = username w /\
    (stat_file w = Some "Stream Down" ->
     outbox w1 = (outbox w ++ [Spec.back_online w])%list /\
     stat_file w1 = Some "Running") /\
    (stat_file w = Some "Running" ->
     outbox w1 = outbox w /\ stat_file w1 = Some "Running").
Proof.
  intros H. unfold task_stream_status. unfold bind at 1.
  destruct (probe_loop_spec net 5 (false, EmptyString) w) as (r & j & E & _ & Hex & _).
  rewrite E. rewrite (Hex H). destruct w. simpl.
  destruct stat_file0 as [st|].
  - destruct (String.eqb "Stream Down" st) eqn:Hst.
    + apply String.eqb_eq in Hst. subst st.
      eexists. split; [run_task; reflexivity|]. simpl.
      split; [reflexivity|]. split; [intros _; split; reflexivity | discriminate].
    + eexists. split; [run_task; rewrite Hst; reflexivity|]. simpl.
      split; [reflexivity|]. split.
      * intros Hd. inversion Hd. subst st. discriminate.
      * intros Hr. split; [reflexivity | exact Hr].
  - eexists. split; [run_task; reflexivity|]. simpl.
    split; [reflexivity|]. split; discriminate.
Qed.



(** ** SwearLogRelay *)

Lemma py_eq_refl (v : Log.jvalue) : Log.py_eq v v = true.
Proof.
  destruct v as [|b|z|s]; simpl;
    auto using String.eqb_refl, Z.eqb_refl, Bool.eqb_reflx.
Qed.

Lemma lookup_in (k : string) (d : Log.dict) (v : Log.jvalue) :
  Log.lookup k d = Some v -> In (k, v) d.
Proof.
  induction d as [|[k' v'] d IH]; simpl; [discriminate|].
  destruct (String.eqb k k') eqn:E.
  - apply String.eqb_eq in E. intros H. inversion H. subst. left. reflexivity.
  - intros H. right. apply IH, H.
Qed.

Lemma in_lookup (k : string) (d : Log.dict) (v : Log.jvalue) :
  NoDup (Log.keys d) -> In (k, v) d -> Log.lookup k d = Some v.
Proof.
  induction d as [|[k' v'] d IH]; simpl; [tauto|].
  intros Hnd [H | H].
  - inversion H. subst. rewrite String.eqb_refl. reflexivity.
  - inversion Hnd as [|? ? Hnot Hnd']. subst.
    destruct (String.eqb k k') eqn:E.
    + apply String.eqb_eq in E. subst k'. exfalso. apply Hnot.
      change k with (fst (k, v)). apply in_map, H.
    + apply IH; assumption.
Qed.

Lemma items_agree_true (a b : Log.dict) :
  Log.items_agree a b = true <->
  (forall k v, In (k, v) a ->
     exists v', Log.lookup k b = Some v' /\ Log.py_eq v v' = true).
Proof.
  induction a as [|[k v] a IH]; simpl.
  - split; [intros _ k v [] | reflexivity].
  - destruct (Log.lookup k b) as [v'|] eqn:L.
    + destruct (Log.py_eq v v') eqn:E; simpl.
      * rewrite IH. split.
        -- intros H k0 v0 [H0 | H0]; [inversion H0; subst; eauto | apply H, H0].
        -- intros H k0 v0 H0. apply H. right. exact H0.
      * split; [discriminate|]. intros H.
        destruct (H k v (or_introl eq_refl)) as (v2 & L2 & E2). congruence.
    + split; [discriminate|]. intros H.
      destruct (H k v (or_introl eq_refl)) as (v2 & L2 & E2). congruence.
Qed.

Lemma compare_json_reordered (a b : Log.dict) :
  NoDup (Log.keys a) -> Permutation a b -> Log.compare_json a b = true.
Proof.
  intros Hnd Hp.
  assert (Hnd' : NoDup (Log.keys b)).
  { apply (Permutation_NoDup (l := Log.keys a)); [|exact Hnd].
    unfold Log.keys. apply Permutation_map, Hp. }
  assert (Hab : Log.items_agree a b = true).
  { apply items_agree_true. intros k v H. exists v. split; [|apply py_eq_refl].
    apply in_lookup; [exact Hnd'|]. apply (Permutation_in _ Hp H). }
  assert (Hba : Log.items_agree b a = true).
  { apply items_agree_true. intros k v H. exists v. split; [|apply py_eq_refl].
    apply in_lookup; [exact Hnd|]. apply (Permutation_in _ (Permutation_sym Hp) H). }
  unfold Log.compare_json. rewrite Hab, Hba. reflexivity.
Qed.

Lemma compare_json_differs (a b : Log.dict) (k : string) (v v' : Log.jvalue) :
  Log.lookup k a = Some v -> Log.lookup k b = Some v' -> Log.py_eq v v' = false ->
  Log.compare_json a b = false.
Proof.
  intros La Lb E. unfold Log.compare_json.
  destruct (Log.items_agree a b) eqn:H; [|reflexivity]. exfalso.
  rewrite items_agree_true in H.
  destruct (H k v (lookup_in _ _ _ La)) as (v2 & L2 & E2). congruence.
Qed.

Lemma generate_well_formed (data : Log.dict) :
  Spec.well_formed data = true ->
  exists c rest, Log.generate_swear_log data = inr (String c rest).
Proof.
  unfold Spec.well_formed, Log.fields. cbn [forallb].
  repeat rewrite andb_true_iff. intros (H1 & H2 & H3 & H4 & H5 & H6 & H7 & _).
  unfold Log.generate_swear_log, Log.validate, Log.validate_loop, Log.fields,
    Log.has_key, Log.append_field, Log.and_then.
  rewrite Z.eqb_refl.
  destruct (Log.lookup "date" data) as [[| | |s1]|]; try discriminate.
  destruct (Log.lookup "time" data) as [[| | |s2]|]; try discriminate.
  destruct (Log.lookup "song title" data) as [[| | |s3]|]; try discriminate.
  destruct (Log.lookup "song artist" data) as [[| | |s4]|]; try discriminate.
  destruct (Log.lookup "song composer" data) as [[| | |s5]|]; try discriminate.
  destruct (Log.lookup "show name" data) as [[| | |s6]|]; try discriminate.
  destruct (Log.lookup "report" data) as [[| | |s7]|]; try discriminate.
  cbn [negb]. eexists. eexists. reflexivity.
Qed.

Lemma generate_needs_fields (data : Log.dict) (msg : string) :
  Log.has_key "date" data = true ->
  Log.generate_swear_log data = inr msg ->
  forall f, In f Log.fields -> Log.has_key f data = true.
Proof.
  intros Hd. unfold Log.generate_swear_log, Log.validate, Log.validate_loop, Log.fields.
  rewrite Z.eqb_refl, Hd. cbn [negb].
  unfold Log.append_field, Log.and_then.
  destruct (Log.lookup "show name" data) as [[| | |s6]|] eqn:E6; try discriminate.
  destruct (Log.lookup "date" data) as [[| | |s1]|] eqn:E1; try discriminate.
  destruct (Log.lookup "time" data) as [[| | |s2]|] eqn:E2; try discriminate.
  destruct (Log.lookup "song title" data) as [[| | |s3]|] eqn:E3; try discriminate.
  destruct (Log.lookup "song artist" data) as [[| | |s4]|] eqn:E4; try discriminate.
  destruct (Log.lookup "song composer" data) as [[| | |s5]|] eqn:E5; try discriminate.
  destruct (Log.lookup "report" data) as [[| | |s7]|] eqn:E7; try discriminate.
  intros _ f Hf. cbn [In] in Hf. unfold Log.has_key.
  repeat (destruct Hf as [<- | Hf];
          [first [rewrite E1 | rewrite E2 | rewrite E3 | rewrite E4
                 | rewrite E5 | rewrite E6 | rewrite E7]; reflexivity|]).
  contradiction.
Qed.

Lemma swear_log_unchanged (w : World) (data snap : Log.dict) :
  swear_json w = Some data -> lastSwear_json w = Some snap ->
  Log.compare_json data snap = true ->
  task_swear_log w = Ok tt w.
Proof.
  intros Hd Hs Hc. destruct w. simpl in *. subst.
  cbv [task_swear_log bind gets lift ret Log.read_json]. simpl. rewrite Hc. reflexivity.
Qed.

Lemma swear_log_changed (w : World) (data snap : Log.dict) :
  swear_json w = Some data -> lastSwear_json w = Some snap ->
  Log.compare_json data snap = false ->
  task_swear_log w =
    match Log.generate_swear_log data with
    | inl e => Raise e (with_lastSwear_json (Some data) w)
    | inr msg =>
        if Py.truthy msg
        then teq_message msg "engineering" SKULL_EMOJI (with_lastSwear_json (Some data) w)
        else Ok tt (with_lastSwear_json (Some data) w)
    end.
Proof.
  intros Hd Hs Hc. destruct w. simpl in *. subst.
  cbv [task_swear_log bind gets lift ret modify Log.read_json Log.write_json]. simpl.
  rewrite Hc. simpl.
  destruct (Log.generate_swear_log data) as [e|msg]; [reflexivity|].
  destruct (Py.truthy msg); reflexivity.
Qed.

(** C3, as the code has it: a record without the date field fails closed
    (nothing is posted, nothing is raised); a record that has the date
    field but lacks another required field passes [validate], and the task
    raises while formatting it, after the snapshot has been overwritten. *)
Theorem swear_log_missing_field (w : World) (data snap : Log.dict) :
  swear_json w = Some data ->
  lastSwear_json w = Some snap ->
  Log.compare_json data snap = false ->
  (exists f, In f Log.fields /\ Log.has_key f data = false) ->
  (Log.has_key "date" data = false ->
   exists w1, task_swear_log w = Ok tt w1 /\ Spec.posted w w1 = []) /\
  (Log.has_key "date" data = true ->
   exists e, task_swear_log w = Raise e (with_lastSwear_json (Some data) w)).
Proof.
  intros Hd Hs Hc (f & Hf & Hmiss).
  rewrite (swear_log_changed w data snap Hd Hs Hc). split; intros Hdate.
  - unfold Log.generate_swear_log, Log.validate, Log.validate_loop, Log.fields.
    rewrite Z.eqb_refl, Hdate. cbn [negb Py.truthy].
    eexists. split; [reflexivity|]. apply posted_same. destruct w; reflexivity.
  - destruct (Log.generate_swear_log data) as [e|msg] eqn:G.
    + exists e. reflexivity.
    + rewrite (generate_needs_fields data msg Hdate G f Hf) in Hmiss. discriminate.
Qed.

Lemma swear_log_missing_field_witness :
  let data := [("date", Log.JStr "2024-05-01")] in
  let w := Spec.logger_world data [] in
  task_swear_log w =
    Raise (Py.KeyError "show name") (with_lastSwear_json (Some data) w).
Proof.
  intros data w.
  destruct (swear_log_missing_field w data [] eq_refl eq_refl eq_refl) as (_ & H).
  - exists "time". split; [simpl; tauto | reflexivity].
  - destruct (H eq_refl) as (e & E). rewrite E. f_equal.
    assert (X : task_swear_log w =
                Raise (Py.KeyError "show name") (with_lastSwear_json (Some data) w))
      by reflexivity.
    rewrite E in X. inversion X. reflexivity.
Defined.




(** ** Flag decoder *)

Lemma mem_same_elements (y : string) (l l' : list string) :
  (forall x, In x l <-> In x l') -> Py.mem y l = Py.mem y l'.
Proof.
  intros H. unfold Py.mem. apply eq_iff_eq_true.
  rewrite !existsb_exists. split; intros (x & Hx & E); exists x; split; auto; apply H; auto.
Qed.

Lemma mem_filter_recognized (y : string) (l : list string) :
  Spec.recognized y = true ->
  Py.mem y (filter Spec.recognized l) = Py.mem y l.
Proof.
  intros Hy. unfold Py.mem. apply eq_iff_eq_true.
  rewrite !existsb_exists. split; intros (x & Hx & E); exists x; split; auto.
  - apply filter_In in Hx. tauto.
  - apply filter_In. split; [exact Hx|]. apply String.eqb_eq in E. subst x. exact Hy.
Qed.

Lemma mem_absent (P : string -> bool) (y : string) (l : list string) :
  existsb P l = false -> P y = true -> Py.mem y l = false.
Proof.
  intros Hl Hy. unfold Py.mem. apply not_true_is_false. intros H.
  apply existsb_exists in H. destruct H as (x & Hx & E).
  apply String.eqb_eq in E. subst x.
  assert (X : existsb P l = true) by (apply existsb_exists; eauto). congruence.
Qed.

(** With the command word first and neither USAGE nor MESSAGE after it,
    the handler takes the scheduler branch; the command word itself is not
    an option. *)
Lemma handler_scheduler_branch (cmd : string) (toks : list string) :
  Py.upper cmd = "SCHEDULER" ->
  existsb Spec.command_word toks = false ->
  Main.command_handler (cmd :: toks) =
  Log.and_then (Main.scheduler_event toks) (fun event => inr (Main.RunScheduler event)).
Proof.
  intros Hcmd Hc.
  assert (Hu : Py.mem "USAGE" toks = false) by (apply (mem_absent _ _ _ Hc); reflexivity).
  assert (Hm : Py.mem "MESSAGE" toks = false) by (apply (mem_absent _ _ _ Hc); reflexivity).
  unfold Main.command_handler, Main.scheduler_event. rewrite Hcmd.
  change (Py.mem ?y ("SCHEDULER" :: ?l)) with (String.eqb y "SCHEDULER" || Py.mem y l).
  rewrite Hu, Hm. cbn [String.eqb Ascii.eqb Bool.eqb orb]. reflexivity.
Qed.

Lemma scheduler_event_same_elements (toks toks' : list string) :
  (forall x, In x toks <-> In x toks') ->
  Main.scheduler_event toks' = Main.scheduler_event toks.
Proof.
  intros H. unfold Main.scheduler_event.
  rewrite !(mem_same_elements _ toks toks' H). reflexivity.
Qed.

Lemma scheduler_event_ignores_unknown (toks : list string) :
  Main.scheduler_event (filter Spec.recognized toks) = Main.scheduler_event toks.
Proof.
  unfold Main.scheduler_event.
  rewrite !mem_filter_recognized by reflexivity. reflexivity.
Qed.

Lemma filter_none_recognized (toks : list string) :
  existsb Spec.recognized toks = false -> filter Spec.recognized toks = [].
Proof.
  induction toks as [|x l IH]; [reflexivity|].
  cbn [existsb filter]. intros H. apply orb_false_iff in H. destruct H as [Hx Hl].
  rewrite Hx. apply IH, Hl.
Qed.

Lemma command_word_same_elements (toks toks' : list string) :
  (forall x, In x toks <-> In x toks') ->
  existsb Spec.command_word toks = false ->
  existsb Spec.command_word toks' = false.
Proof.
  intros H Hc. apply not_true_is_false. intros X.
  apply existsb_exists in X. destruct X as (x & Hx & E).
  assert (Y : existsb Spec.command_word toks = true)
    by (apply existsb_exists; exists x; split; [apply H, Hx | exact E]).
  congruence.
Qed.

Lemma command_word_filter (toks : list string) :
  existsb Spec.command_word toks = false ->
  existsb Spec.command_word (filter Spec.recognized toks) = false.
Proof.
  intros Hc. apply not_true_is_false. intros X.
  apply existsb_exists in X. destruct X as (x & Hx & E). apply filter_In in Hx.
  assert (Y : existsb Spec.command_word toks = true)
    by (apply existsb_exists; exists x; tauto).
  congruence.
Qed.

Lemma encode_recognized (m : Spec.TaskMask) (long : Task -> bool) (x : string) :
  In x (Spec.encode long m) -> Spec.recognized x = true.
Proof.
  unfold Spec.encode. rewrite in_map_iff. intros (t & <- & _).
  destruct t, (long _); reflexivity.
Qed.

Lemma encode_no_command_word (m : Spec.TaskMask) (long : Task -> bool) :
  existsb Spec.command_word (Spec.encode long m) = false.
Proof.
  apply not_true_is_false. intros X.
  apply existsb_exists in X. destruct X as (x & Hx & E).
  unfold Spec.encode in Hx. rewrite in_map_iff in Hx. destruct Hx as (t & <- & _).
  destruct t, (long _); discriminate.
Qed.

(** Every selection of flags and every choice of aliases, by cases. *)
Lemma encode_roundtrip (m : Spec.TaskMask) (long : Task -> bool) :
  exists event fl,
    Main.scheduler_event (Spec.encode long m) = inr event /\
    Py.int_base 2 event = Some (Spec.mask_value m) /\
    decode_flags event = inr fl /\
    forall t, negb (N.eqb (Spec.flag_of fl t) 0) = m t.
Proof.
  unfold Spec.encode, Spec.mask_value, Spec.named_tasks. cbn [filter map fold_right].
  destruct (m NowPlayingTask) eqn:M1, (m StreamStatusTask) eqn:M2,
           (m CheckLyricsTask) eqn:M3, (m SwearLogTask) eqn:M4,
           (m UpdateRepoTask) eqn:M5;
  cbn [map];
  destruct (long NowPlayingTask), (long StreamStatusTask), (long CheckLyricsTask),
           (long SwearLogTask), (long UpdateRepoTask);
  (eexists; eexists; split; [vm_compute; reflexivity|];
   split; [vm_compute; reflexivity|]; split; [vm_compute; reflexivity|];
   intros t; destruct t; cbn; congruence).
Qed.

Lemma loop_nothing_enabled (env : nat -> World -> World) (frequency : Z) (fuel : nat) :
  forall tick c w trace,
    let r := loop env (mkFlags 0 0 0 0 0) frequency fuel tick c w trace in
    crashed r = false /\ trace_of r = trace.
Proof.
  induction fuel as [|fuel IH]; intros tick c w trace r.
  - split; reflexivity.
  - unfold r. cbn [loop].
    change (trigger_events (mkFlags 0 0 0 0 0) frequency c) with
      (@inr Py.exn (Clocks * list Task) (c, [])).
    cbn [map]. rewrite app_nil_r.
    destruct (check_stat_file "Done" (env tick w)); [split; reflexivity|].
    apply IH.
Qed.

Lemma scheduler_zero_mask (env : nat -> World -> World) (frequency : Z) (fuel : nat) (w : World) :
  crashed (scheduler env "00000000" frequency fuel w) = false /\
  trace_of (scheduler env "00000000" frequency fuel w) = [].
Proof.
  unfold scheduler.
  change (decode_flags "00000000") with (@inr Py.exn Flags (mkFlags 0 0 0 0 0)).
  apply loop_nothing_enabled.
Qed.

(** C9: for every task mask made of the named flags and every choice
    between the long and the short option of each flag that is set, the
    scheduler command given the options that encode the mask, in any order
    and with any repetition, starts the scheduler with an event string
    whose value is the mask, and the scheduler enables exactly the tasks of
    the mask. *)
Theorem decode_encode_roundtrip
        (m : Spec.TaskMask) (long : Task -> bool) (cmd : string) (toks : list string) :
  Py.upper cmd = "SCHEDULER" ->
  (forall x, In x toks <-> In x (Spec.encode long m)) ->
  exists event fl,
    Main.command_handler (cmd :: toks) = inr (Main.RunScheduler event) /\
    Py.int_base 2 event = Some (Spec.mask_value m) /\
    decode_flags event = inr fl /\
    forall t, negb (N.eqb (Spec.flag_of fl t) 0) = m t.
Proof.
  intros Hcmd H.
  destruct (encode_roundtrip m long) as (event & fl & E & V & D & F).
  exists event, fl. split; [|auto].
  assert (H' : forall x, In x (Spec.encode long m) <-> In x toks)
    by (intros x; symmetry; apply H).
  rewrite (handler_scheduler_branch cmd toks Hcmd).
  - rewrite (scheduler_event_same_elements _ _ H'), E. reflexivity.
  - apply (command_word_same_elements _ _ H'), encode_no_command_word.
Qed.

Lemma decode_encode_roundtrip_witness :
  exists event,
    Main.command_handler ["scheduler"; "--swear"; "-n"; "--swear"] =
      inr (Main.RunScheduler event) /\
    Py.int_base 2 event = Some 9%N.
Proof.
  destruct (decode_encode_roundtrip
              (fun t => match t with NowPlayingTask | SwearLogTask => true | _ => false end)
              (fun t => match t with SwearLogTask => true | _ => false end)
              "scheduler" ["--swear"; "-n"; "--swear"]) as (event & fl & E & V & _).
  - reflexivity.
  - intros x. cbn. tauto.
  - exists event. split; [exact E | exact V].
Defined.

(** C2, as the code has it: on the scheduler command, when the
    arguments hold no recognized option (in particular when they hold no
    option at all) the event string is the all-zero mask, the scheduler
    starts and never spawns a task; options the decoder does not know are
    ignored, and the result depends only on which options occur, not on
    their order or number. The words USAGE and MESSAGE are set apart: they
    select another command. *)
Theorem scheduler_flag_decoder (cmd : string) (toks : list string) :
  Py.upper cmd = "SCHEDULER" ->
  existsb Spec.command_word toks = false ->
  (existsb Spec.recognized toks = false ->
   Main.command_handler (cmd :: toks) = inr (Main.RunScheduler "00000000") /\
   Py.int_base 2 "00000000" = Some 0%N /\
   forall env frequency fuel w,
     crashed (scheduler env "00000000" frequency fuel w) = false /\
     trace_of (scheduler env "00000000" frequency fuel w) = []) /\
  Main.command_handler (cmd :: toks) =
    Main.command_handler (cmd :: filter Spec.recognized toks) /\
  (forall toks',
     (forall x, In x toks <-> In x toks') ->
     Main.command_handler (cmd :: toks') = Main.command_handler (cmd :: toks)).
Proof.
  intros Hcmd Hc. rewrite (handler_scheduler_branch cmd toks Hcmd Hc).
  split; [|split].
  - intros Hr. split.
    + rewrite <- scheduler_event_ignores_unknown, (filter_none_recognized toks Hr).
      reflexivity.
    + split; [reflexivity|]. intros env frequency fuel w. apply scheduler_zero_mask.
  - rewrite (handler_scheduler_branch cmd _ Hcmd (command_word_filter toks Hc)).
    rewrite scheduler_event_ignores_unknown. reflexivity.
  - intros toks' H.
    rewrite (handler_scheduler_branch cmd _ Hcmd (command_word_same_elements _ _ H Hc)).
    rewrite (scheduler_event_same_elements _ _ H). reflexivity.
Qed.

Lemma scheduler_flag_decoder_witness :
  Main.command_handler ["scheduler"] = inr (Main.RunScheduler "00000000") /\
  Main.command_handler ["Scheduler"; "--verbose"; "-x"] =
    inr (Main.RunScheduler "00000000") /\
  Main.command_handler ["scheduler"; "-s"; "--verbose"; "-s"] =
    Main.command_handler ["scheduler"; "-s"].
Proof.
  split; [|split].
  - destruct (scheduler_flag_decoder "scheduler" [] eq_refl eq_refl) as (H & _).
    destruct (H eq_refl) as (E & _). exact E.
  - destruct (scheduler_flag_decoder "Scheduler" ["--verbose"; "-x"] eq_refl eq_refl)
      as (H & _).
    destruct (H eq_refl) as (E & _). exact E.
  - destruct (scheduler_flag_decoder "scheduler" ["-s"; "--verbose"; "-s"] eq_refl eq_refl)
      as (_ & E & _).
    exact E.
Defined.

(** C2, the claim as stated fails: with no option at all the scheduler
    command builds the all-zero mask, not the all-ones default of the
    [event] parameter. *)
Lemma no_option_is_not_run_everything :
  Main.command_handler ["scheduler"] = inr (Main.RunScheduler "00000000") /\
  Py.int_base 2 "00000000" = Some 0%N /\
  Py.int_base 2 "11111111" = Some 255%N /\
  (forall env fuel w,
     trace_of (scheduler env "00000000" STANDARD_FREQUENCY fuel w) = []) /\
  trace_of (scheduler (fun _ w => w) "11111111" STANDARD_FREQUENCY 1 init_world) =
    [(0%nat, NowPlayingTask); (0%nat, StreamStatusTask); (0%nat, CheckLyricsTask);
     (0%nat, SwearLogTask); (0%nat, UpdateRepoTask)].
Proof.
  split; [reflexivity|]. split; [reflexivity|]. split; [reflexivity|].
  split; [|reflexivity]. intros env fuel w. apply scheduler_zero_mask.
Qed.

(** ** Event strings *)

Lemma parse_bits_pos (b : N) (p : positive) :
  (2 <= b)%N ->
  forall a rest,
    Py.parse_digits b a (Py.bits_pos p rest) = Py.parse_digits b (Spec.digits_value b a p) rest.
Proof.
  intros Hb.
  assert (H0 : (0 <? b)%N = true) by (apply N.ltb_lt; lia).
  assert (H1 : (1 <? b)%N = true) by (apply N.ltb_lt; lia).
  induction p as [p IH|p IH|]; intros a rest; cbn [Py.bits_pos Spec.digits_value].
  - rewrite IH. cbn [Py.parse_digits].
    change (Py.digit_of "1") with (Some 1%N). cbv beta iota. rewrite H1. reflexivity.
  - rewrite IH. cbn [Py.parse_digits].
    change (Py.digit_of "0") with (Some 0%N). cbv beta iota. rewrite H0. rewrite N.add_0_r. reflexivity.
  - cbn [Py.parse_digits]. change (Py.digit_of "1") with (Some 1%N). cbv beta iota. rewrite H1. reflexivity.
Qed.

Lemma bits_pos_not_empty (p : positive) :
  forall rest, exists c s, Py.bits_pos p rest = String c s.
Proof.
  induction p as [p IH|p IH|]; intros rest; cbn [Py.bits_pos]; eauto.
Qed.

Lemma int_base_format_b (b n : N) :
  (2 <= b)%N ->
  Py.int_base b (Py.format_b n) =
    Some (match n with N0 => 0 | Npos p => Spec.digits_value b 0 p end)%N.
Proof.
  intros Hb. destruct n as [|p].
  - cbn [Py.format_b Py.int_base Py.parse_digits].
    change (Py.digit_of "0") with (Some 0%N). cbv beta iota.
    replace (0 <? b)%N with true by (symmetry; apply N.ltb_lt; lia). reflexivity.
  - cbn [Py.format_b]. destruct (bits_pos_not_empty p EmptyString) as (c & s & E).
    unfold Py.int_base. rewrite E. rewrite <- E.
    rewrite (parse_bits_pos b p Hb). reflexivity.
Qed.

Lemma digits_value_binary (p : positive) : Spec.digits_value 2 0 p = Npos p.
Proof.
  induction p as [p IH|p IH|]; cbn [Spec.digits_value]; try rewrite IH; lia.
Qed.

Lemma digits_value_positive (b a : N) (p : positive) :
  (1 <= b)%N -> (1 <= Spec.digits_value b a p)%N.
Proof.
  intros Hb. induction p as [p IH|p IH|]; cbn [Spec.digits_value]; nia.
Qed.

(** Writing a mask in binary and reading it back in base two is the
    identity. *)
Lemma int_format_b (n : N) : Py.int_base 2 (Py.format_b n) = Some n.
Proof.
  rewrite int_base_format_b by lia. destruct n; [reflexivity|].
  rewrite digits_value_binary. reflexivity.
Qed.

(** Reading the binary digits in base ten gives zero exactly for zero. *)
Lemma decimal_of_binary (n : N) :
  exists v, Py.int_base 10 (Py.format_b n) = Some v /\ (N.eqb v 0 = N.eqb n 0).
Proof.
  rewrite int_base_format_b by lia. eexists. split; [reflexivity|].
  destruct n as [|p]; [reflexivity|].
  pose proof (digits_value_positive 10 0 p ltac:(lia)).
  cbn [N.eqb]. destruct (Spec.digits_value 10 0 p); [lia | reflexivity].
Qed.

Lemma task_flag_spec (event bit : string) (mask b : N) :
  Py.int_base 2 event = Some mask ->
  Py.int_base 2 bit = Some b ->
  exists v, task_flag event bit = inr v /\ N.eqb v 0 = N.eqb (N.land mask b) 0.
Proof.
  intros He Hb. unfold task_flag. rewrite He, Hb.
  destruct (decimal_of_binary (N.land mask b)) as (v & E & Hv).
  rewrite E. eauto.
Qed.

Lemma decode_flags_spec (event : string) (mask : N) :
  Py.int_base 2 event = Some mask ->
  exists fl,
    decode_flags event = inr fl /\
    forall t, N.eqb (Spec.flag_of fl t) 0 = N.eqb (N.land mask (Spec.bit_of t)) 0.
Proof.
  intros He. unfold decode_flags.
  destruct (task_flag_spec event NOW_PLAYING mask 1 He eq_refl) as (v1 & E1 & H1).
  destruct (task_flag_spec event STREAM_STATUS mask 2 He eq_refl) as (v2 & E2 & H2).
  destruct (task_flag_spec event UPDATE_REPO mask 128 He eq_refl) as (v3 & E3 & H3).
  destruct (task_flag_spec event CHECK_LYRICS mask 4 He eq_refl) as (v4 & E4 & H4).
  destruct (task_flag_spec event SWEAR_LOG mask 8 He eq_refl) as (v5 & E5 & H5).
  rewrite E1, E2, E3, E4, E5. cbn [Log.and_then].
  eexists. split; [reflexivity|]. intros t; destruct t; assumption.
Qed.

(** ** Tick loop *)

(** No flag is set: nothing is due, whatever the frequency. *)
Lemma trigger_events_disabled (fl : Flags) (frequency : Z) (c : Clocks) :
  (forall t, N.eqb (Spec.flag_of fl t) 0 = true) ->
  trigger_events fl frequency c = inr (c, []).
Proof.
  intros Hoff.
  pose proof (Hoff NowPlayingTask) as H1. pose proof (Hoff StreamStatusTask) as H2.
  pose proof (Hoff CheckLyricsTask) as H3. pose proof (Hoff SwearLogTask) as H4.
  pose proof (Hoff UpdateRepoTask) as H5.
  cbn [Spec.flag_of] in H1, H2, H3, H4, H5.
  unfold trigger_events, due. rewrite H1. cbn [Log.and_then].
  rewrite H2. cbn [Log.and_then]. rewrite H3. cbn [Log.and_then].
  rewrite H4. cbn [Log.and_then]. rewrite H5. reflexivity.
Qed.

(** One pass over the five blocks, when no modulo can raise: each task
    is spawned exactly when it is enabled and due, its clock is then 1, and
    the other clocks are untouched. *)
Lemma trigger_events_spec (fl : Flags) (frequency : Z) (c : Clocks) :
  frequency <> 0%Z \/ (forall t, N.eqb (Spec.flag_of fl t) 0 = true) ->
  exists c' spawned,
    trigger_events fl frequency c = inr (c', spawned) /\
    (forall t, Spec.clock_of c' t =
               if Spec.fires_now fl frequency c t then 1%Z else Spec.clock_of c t) /\
    (forall t, existsb (fun x => Spec.task_eqb x t) spawned = Spec.fires_now fl frequency c t).
Proof.
  intros [Hf | Hoff].
  2:{ exists c, []. split; [apply trigger_events_disabled, Hoff|].
      unfold Spec.fires_now. split; intros t; rewrite (Hoff t); reflexivity. }
  unfold trigger_events, Spec.fires_now, Spec.divisor, due.
  replace (frequency * 2 =? 0)%Z with false by (symmetry; apply Z.eqb_neq; lia).
  replace (frequency * 20 =? 0)%Z with false by (symmetry; apply Z.eqb_neq; lia).
  replace (frequency * 1200 =? 0)%Z with false by (symmetry; apply Z.eqb_neq; lia).
  replace (frequency =? 0)%Z with false by (symmetry; apply Z.eqb_neq; lia).
  destruct c as [c1 c2 c3 c4 c5], fl as [f1 f2 f3 f4 f5].
  cbn [nowPlaying streamStatus updateRepo checkLyrics swearLog
       nowPlayingClock streamStatusClock updateRepoClock checkLyricsClock swearLogClock].
  (destruct (N.eqb f1 0) eqn:F1;
     [|destruct (Z.eqb (c1 mod (frequency * 2)) 0) eqn:E1]);
  cbn [Log.and_then streamStatusClock];
  (destruct (N.eqb f2 0) eqn:F2;
     [|destruct (Z.eqb (c2 mod (frequency * 20)) 0) eqn:E2]);
  cbn [Log.and_then checkLyricsClock];
  (destruct (N.eqb f4 0) eqn:F4;
     [|destruct (Z.eqb (c4 mod frequency) 0) eqn:E4]);
  cbn [Log.and_then swearLogClock];
  (destruct (N.eqb f5 0) eqn:F5;
     [|destruct (Z.eqb (c5 mod frequency) 0) eqn:E5]);
  cbn [Log.and_then updateRepoClock];
  (destruct (N.eqb f3 0) eqn:F3;
     [|destruct (Z.eqb (c3 mod (frequency * 1200)) 0) eqn:E3]);
  cbn [Log.and_then nowPlayingClock streamStatusClock updateRepoClock
       checkLyricsClock swearLogClock];
  (eexists; eexists; split; [reflexivity|];
   split; intros t; destruct t;
   cbn [Spec.flag_of Spec.clock_of Spec.multiplier
        nowPlaying streamStatus updateRepo checkLyrics swearLog
        nowPlayingClock streamStatusClock updateRepoClock checkLyricsClock swearLogClock];
   rewrite ?Z.mul_1_r, ?F1, ?F2, ?F3, ?F4, ?F5, ?E1, ?E2, ?E3, ?E4, ?E5;
   reflexivity).
Qed.

Lemma loop_add (env : nat -> World -> World) (fl : Flags) (frequency : Z) (fuel more : nat) :
  forall tick c w trace,
    loop env fl frequency (fuel + more) tick c w trace =
    match loop env fl frequency fuel tick c w trace with
    | StillRunning c' w' trace' => loop env fl frequency more (tick + fuel) c' w' trace'
    | r => r
    end.
Proof.
  induction fuel as [|fuel IH]; intros tick c w trace.
  - cbn [loop Nat.add]. rewrite Nat.add_0_r. reflexivity.
  - cbn [loop Nat.add].
    destruct (trigger_events fl frequency c) as [e|[c' spawned]]; [reflexivity|].
    destruct (check_stat_file "Done" (env tick w)); [reflexivity|].
    rewrite IH. rewrite Nat.add_succ_r. reflexivity.
Qed.

Lemma mod_succ (a p : Z) :
  (0 < p)%Z ->
  ((a + 1) mod p = if a mod p + 1 =? p then 0 else a mod p + 1)%Z.
Proof.
  intros Hp.
  pose proof (Z.mod_pos_bound a p Hp) as Hr.
  pose proof (Z.div_mod a p ltac:(lia)) as Hd.
  destruct (a mod p + 1 =? p)%Z eqn:E.
  - apply Z.eqb_eq in E. symmetry. apply (Zmod_unique _ _ (a / p + 1)%Z); lia.
  - apply Z.eqb_neq in E. symmetry. apply (Zmod_unique _ _ (a / p)%Z); lia.
Qed.

(** The clock of an enabled task from one iteration to the next: it is a
    multiple of the divisor exactly in the iterations that are multiples of
    the period, and [clock_at] follows the reset to 1 and the increment. *)
Lemma clock_step (d : Z) (k : nat) :
  (0 < d)%Z ->
  (Spec.clock_at d k mod d =? 0)%Z = (Z.of_nat k mod Spec.period d =? 0)%Z /\
  Spec.clock_at d (S k) =
    ((if Spec.clock_at d k mod d =? 0 then 1 else Spec.clock_at d k) + 1)%Z.
Proof.
  intros Hd. destruct k as [|k].
  - cbn [Spec.clock_at Z.of_nat]. rewrite !Z.mod_0_l by (unfold Spec.period; lia).
    split; reflexivity.
  - cbn [Spec.clock_at]. rewrite Nat2Z.inj_succ. unfold Z.succ.
    assert (Hp : (0 < Spec.period d)%Z) by (unfold Spec.period; lia).
    rewrite (mod_succ (Z.of_nat k) _ Hp).
    pose proof (Z.mod_pos_bound (Z.of_nat k) _ Hp) as Hr.
    set (r := (Z.of_nat k mod Spec.period d)%Z) in *.
    destruct (Z.eq_dec d 1) as [->|Hd1].
    + change (Spec.period 1) with 1%Z in *. assert (r = 0%Z) by lia.
      replace r with 0%Z by lia. split; reflexivity.
    + assert (Ep : Spec.period d = (d - 1)%Z) by (unfold Spec.period; lia).
      rewrite Ep in *.
      destruct (r + 1 =? d - 1)%Z eqn:E.
      * apply Z.eqb_eq in E. replace (r + 2)%Z with d by lia.
        rewrite Z_mod_same_full. split; reflexivity.
      * apply Z.eqb_neq in E. rewrite (Z.mod_small (r + 2) d) by lia.
        replace (r + 2 =? 0)%Z with false by (symmetry; apply Z.eqb_neq; lia).
        replace (r + 1 =? 0)%Z with false by (symmetry; apply Z.eqb_neq; lia).
        split; [reflexivity | lia].
Qed.

Lemma clock_of_advance (c : Clocks) (t : Task) :
  Spec.clock_of (advance c) t = (Spec.clock_of c t + 1)%Z.
Proof. destruct t; reflexivity. Qed.

Lemma fired_app (l1 l2 : list (nat * Task)) (k : nat) (t : Task) :
  Spec.fired (l1 ++ l2) k t = Spec.fired l1 k t || Spec.fired l2 k t.
Proof. unfold Spec.fired. apply existsb_app. Qed.

Lemma fired_spawned (tick : nat) (spawned : list Task) (k : nat) (t : Task) :
  Spec.fired (map (pair tick) spawned) k t =
  Nat.eqb tick k && existsb (fun x => Spec.task_eqb x t) spawned.
Proof.
  unfold Spec.fired. induction spawned as [|x l IH]; cbn [map existsb fst snd].
  - rewrite andb_false_r. reflexivity.
  - rewrite IH. destruct (Nat.eqb tick k), (Spec.task_eqb x t); reflexivity.
Qed.

Lemma fired_later (trace : list (nat * Task)) (n k : nat) (t : Task) :
  (forall t' T', In (t', T') trace -> (t' < n)%nat) ->
  (n <= k)%nat ->
  Spec.fired trace k t = false.
Proof.
  intros H Hk. apply not_true_is_false. intros F. unfold Spec.fired in F.
  apply existsb_exists in F. destruct F as ([t' T'] & Hin & E).
  cbn [fst snd] in E. apply andb_true_iff in E. destruct E as [E _].
  apply Nat.eqb_eq in E. subst t'. apply H in Hin. lia.
Qed.

(** The first [n] iterations of the loop, none of which finds Done in the
    status file: the loop is still running, every spawn recorded so far was
    made in one of these iterations, and each enabled task has the clock and
    the firings that [clock_at] and [period] describe. *)
Lemma run_prefix (env : nat -> World -> World) (fl : Flags) (frequency : Z)
      (w0 : World) (n : nat) :
  frequency <> 0%Z \/ (forall t, N.eqb (Spec.flag_of fl t) 0 = true) ->
  (forall k, (k < n)%nat -> check_stat_file "Done" (world_at_poll env w0 k) = false) ->
  exists c trace,
    loop env fl frequency n 0 (mkClocks 0 0 0 0 0) w0 [] =
      StillRunning c (Spec.world_entering env w0 n) trace /\
    (forall t T, In (t, T) trace -> (t < n)%nat) /\
    (forall T, N.eqb (Spec.flag_of fl T) 0 = true ->
               forall t, Spec.fired trace t T = false) /\
    ((0 < frequency)%Z ->
     forall T, N.eqb (Spec.flag_of fl T) 0 = false ->
       Spec.clock_of c T = Spec.clock_at (Spec.divisor frequency T) n /\
       forall t, (t < n)%nat ->
         Spec.fired trace t T =
         (Z.of_nat t mod Spec.period (Spec.divisor frequency T) =? 0)%Z).
Proof.
  intros Hf. induction n as [|n IH]; intros Hpoll.
  - exists (mkClocks 0 0 0 0 0), []. split; [reflexivity|].
    split; [intros t T []|]. split; [reflexivity|].
    intros _ T _. split; [destruct T; reflexivity | intros t Ht; lia].
  - destruct IH as (c & trace & E & Hticks & Hoff & Hon).
    { intros k Hk. apply Hpoll. lia. }
    destruct (trigger_events_spec fl frequency c Hf) as (c' & spawned & Et & Hc' & Hsp).
    exists (advance c'), (trace ++ map (pair n) spawned)%list.
    split; [|split; [|split]].
    + change (Spec.world_entering env w0 (S n)) with (world_at_poll env w0 n).
      replace (S n) with (n + 1)%nat by lia. rewrite loop_add, E.
      cbn [loop Nat.add]. rewrite Et.
      replace (env n (Spec.world_entering env w0 n)) with (world_at_poll env w0 n)
        by (destruct n; reflexivity).
      rewrite (Hpoll n) by lia. reflexivity.
    + intros t T Hin. apply in_app_or in Hin. destruct Hin as [Hin | Hin].
      * apply Hticks in Hin. lia.
      * apply in_map_iff in Hin. destruct Hin as (x & Hx & _). inversion Hx. lia.
    + intros T HT t. rewrite fired_app, fired_spawned, Hsp, (Hoff T HT).
      unfold Spec.fires_now. rewrite HT. cbn [negb andb orb]. apply andb_false_r.
    + intros Hpos T HT. destruct (Hon Hpos T HT) as (Hclock & Hfired).
      assert (Hd : (0 < Spec.divisor frequency T)%Z)
        by (unfold Spec.divisor; destruct T; cbn [Spec.multiplier]; lia).
      destruct (clock_step (Spec.divisor frequency T) n Hd) as (Hiff & Hnext).
      assert (Hnow : Spec.fires_now fl frequency c T =
                     (Z.of_nat n mod Spec.period (Spec.divisor frequency T) =? 0)%Z).
      { unfold Spec.fires_now. rewrite HT, Hclock. cbn [negb andb]. exact Hiff. }
      split.
      * rewrite clock_of_advance, Hc', Hnext.
        unfold Spec.fires_now. rewrite HT, Hclock. cbn [negb andb]. reflexivity.
      * intros t Ht. rewrite fired_app, fired_spawned, Hsp, Hnow.
        destruct (Nat.eqb n t) eqn:En.
        -- apply Nat.eqb_eq in En. subst t.
           rewrite (fired_later trace n n T Hticks) by lia. reflexivity.
        -- apply Nat.eqb_neq in En. rewrite Hfired by lia.
           cbn [andb]. apply orb_false_r.
Qed.

Lemma stat_file_deleted (w : World) : stat_file (delete_stat_file w) = None.
Proof.
  unfold delete_stat_file. destruct (stat_file w) eqn:E; [reflexivity | exact E].
Qed.

(** C1, as the code has it: a task enabled by the event string is
    spawned in an iteration exactly when its clock is a multiple of its
    divisor [d] (the frequency times the multiplier of the task), its clock
    is then set to 1, and every clock is advanced by 1 at the end of every
    iteration; as a result the task is spawned in iteration [t] exactly when
    [t] is a multiple of [max 1 (d - 1)]: successive firings are [d - 1]
    iterations apart, not [d]. *)
Theorem firing_period (env : nat -> World -> World) (event : string) (mask : N)
        (frequency : Z) (n : nat) (w : World) (T : Task) :
  Py.int_base 2 event = Some mask ->
  (0 < frequency)%Z ->
  N.land mask (Spec.bit_of T) <> 0%N ->
  (forall k, (k < n)%nat ->
     check_stat_file "Done" (world_at_poll env (seeded w) k) = false) ->
  let d := Spec.divisor frequency T in
  let r := scheduler env event frequency n w in
  (exists fl,
     decode_flags event = inr fl /\
     forall c, exists c' spawned,
       trigger_events fl frequency c = inr (c', spawned) /\
       existsb (fun x => Spec.task_eqb x T) spawned = (Spec.clock_of c T mod d =? 0)%Z /\
       Spec.clock_of (advance c') T =
         ((if (Spec.clock_of c T mod d =? 0)%Z then 1 else Spec.clock_of c T) + 1)%Z) /\
  crashed r = false /\
  (forall t, (t < n)%nat ->
     Spec.fired (trace_of r) t T = (Z.of_nat t mod Z.max 1 (d - 1) =? 0)%Z).
Proof.
  intros He Hpos HT Hpoll d r.
  destruct (decode_flags_spec event mask He) as (fl & Ed & Hfl).
  assert (Hon : N.eqb (Spec.flag_of fl T) 0 = false)
    by (rewrite Hfl; apply N.eqb_neq; exact HT).
  assert (Hf : frequency <> 0%Z) by lia.
  split; [|split].
  - exists fl. split; [exact Ed|]. intros c.
    destruct (trigger_events_spec fl frequency c (or_introl Hf))
      as (c' & spawned & Et & Hc' & Hsp).
    exists c', spawned. split; [exact Et|].
    assert (Hnow : Spec.fires_now fl frequency c T = (Spec.clock_of c T mod d =? 0)%Z)
      by (unfold Spec.fires_now; rewrite Hon; reflexivity).
    split; [rewrite Hsp; exact Hnow|].
    rewrite clock_of_advance, Hc', Hnow. reflexivity.
  - destruct (run_prefix env fl frequency (seeded w) n (or_introl Hf) Hpoll)
      as (c & trace & E & _).
    unfold r, scheduler. rewrite Ed. unfold seeded in E. rewrite E. reflexivity.
  - destruct (run_prefix env fl frequency (seeded w) n (or_introl Hf) Hpoll)
      as (c & trace & E & _ & _ & Hrun).
    destruct (Hrun Hpos T Hon) as (_ & Hfired).
    unfold r, scheduler. rewrite Ed. unfold seeded in E. rewrite E.
    cbn [trace_of]. exact Hfired.
Qed.

Lemma firing_period_witness :
  let r := scheduler (fun _ w => w) "100" STANDARD_FREQUENCY 12 init_world in
  Spec.fired (trace_of r) 4 CheckLyricsTask = true /\
  Spec.fired (trace_of r) 5 CheckLyricsTask = false.
Proof.
  intros r.
  destruct (firing_period (fun _ w => w) "100" 4 STANDARD_FREQUENCY 12 init_world
                          CheckLyricsTask)
    as (_ & _ & H).
  - reflexivity.
  - reflexivity.
  - discriminate.
  - intros k Hk. do 12 (destruct k as [|k]; [reflexivity|]). lia.
  - split; [apply (H 4%nat) | apply (H 5%nat)]; lia.
Defined.



(** The run behind the period of C1: [teqbot scheduler --lyric], that
    is lyric check alone at the standard frequency, over twelve iterations.
    The divisor is 5 and the task is spawned in iterations 0, 4 and 8. *)
Example lyric_check_every_four_iterations :
  Main.command_handler ["scheduler"; "--lyric"] = inr (Main.RunScheduler "100") /\
  Spec.divisor STANDARD_FREQUENCY CheckLyricsTask = 5%Z /\
  Spec.firings
    (trace_of (scheduler (fun _ w => w) "100" STANDARD_FREQUENCY 12 init_world))
    CheckLyricsTask 12 = [0; 4; 8]%nat.
Proof. repeat split; reflexivity. Qed.

(* ================================================================== *)
(** * Further properties of the scheduler, the tasks and the log *)
(* ================================================================== *)

(** X1: the scheduler command, on any argument list, builds a binary event
    string whose value has exactly the bits of the tasks one of whose
    options, long or short, occurs in the list; the three reserved bits
    are never set; and the scheduler decodes that string to flags that are
    set for exactly those tasks. *)
Theorem scheduler_event_value (args : list string) :
  exists event fl,
    Main.scheduler_event args = inr event /\
    Py.int_base 2 event = Some (Spec.mask_value (Vocab.present args)) /\
    N.land (Spec.mask_value (Vocab.present args)) 112 = 0%N /\
    decode_flags event = inr fl /\
    forall t, negb (N.eqb (Spec.flag_of fl t) 0) = Vocab.present args t.
Proof.
  unfold Main.scheduler_event, Spec.mask_value, Spec.named_tasks.
  cbn [fold_right].
  pose proof (eq_refl : Vocab.present args NowPlayingTask =
     (Py.mem "--nowplaying" args || Py.mem "-n" args)) as P1.
  pose proof (eq_refl : Vocab.present args StreamStatusTask =
     (Py.mem "--status" args || Py.mem "-s" args)) as P2.
  pose proof (eq_refl : Vocab.present args CheckLyricsTask =
     (Py.mem "--lyric" args || Py.mem "-l" args)) as P3.
  pose proof (eq_refl : Vocab.present args SwearLogTask =
     (Py.mem "--swear" args || Py.mem "-w" args)) as P4.
  pose proof (eq_refl : Vocab.present args UpdateRepoTask =
     (Py.mem "--update" args || Py.mem "-u" args)) as P5.
  rewrite <- P1, <- P2, <- P3, <- P4, <- P5.
  destruct (Vocab.present args NowPlayingTask) eqn:M1,
           (Vocab.present args StreamStatusTask) eqn:M2,
           (Vocab.present args CheckLyricsTask) eqn:M3,
           (Vocab.present args SwearLogTask) eqn:M4,
           (Vocab.present args UpdateRepoTask) eqn:M5;
  (eexists; eexists; split; [vm_compute; reflexivity|];
   split; [vm_compute; reflexivity|]; split; [vm_compute; reflexivity|];
   split; [vm_compute; reflexivity|];
   intros t; destruct t; cbn; congruence).
Qed.

Lemma named_bit_of_mask (m : N) (t : Task) :
  N.land m (Spec.bit_of t) = N.land (Vocab.named_bits m) (Spec.bit_of t).
Proof.
  unfold Vocab.named_bits. rewrite <- N.land_assoc.
  destruct t; reflexivity.
Qed.

Lemma task_flag_named_bits (event event' bit : string) (m m' : N) (t : Task) :
  Py.int_base 2 event = Some m ->
  Py.int_base 2 event' = Some m' ->
  Vocab.named_bits m = Vocab.named_bits m' ->
  Py.int_base 2 bit = Some (Spec.bit_of t) ->
  task_flag event bit = task_flag event' bit.
Proof.
  intros He He' Hm Hb. unfold task_flag. rewrite He, He', Hb.
  rewrite (named_bit_of_mask m t), (named_bit_of_mask m' t), Hm. reflexivity.
Qed.

(** X3: two event strings whose values agree on the five named bits make the
    scheduler behave alike: the three reserved bits and leading zeros are
    ignored. *)
Theorem reserved_bits_ignored (env : nat -> World -> World) (event event' : string)
        (m m' : N) (frequency : Z) (fuel : nat) (w : World) :
  Py.int_base 2 event = Some m ->
  Py.int_base 2 event' = Some m' ->
  Vocab.named_bits m = Vocab.named_bits m' ->
  scheduler env event frequency fuel w = scheduler env event' frequency fuel w.
Proof.
  intros He He' Hm. unfold scheduler, decode_flags.
  rewrite (task_flag_named_bits event event' NOW_PLAYING m m' NowPlayingTask He He' Hm eq_refl).
  rewrite (task_flag_named_bits event event' STREAM_STATUS m m' StreamStatusTask He He' Hm eq_refl).
  rewrite (task_flag_named_bits event event' UPDATE_REPO m m' UpdateRepoTask He He' Hm eq_refl).
  rewrite (task_flag_named_bits event event' CHECK_LYRICS m m' CheckLyricsTask He He' Hm eq_refl).
  rewrite (task_flag_named_bits event event' SWEAR_LOG m m' SwearLogTask He He' Hm eq_refl).
  reflexivity.
Qed.

Lemma reserved_bits_ignored_witness :
  scheduler Vocab.quiet "100" 5 20 init_world =
  scheduler Vocab.quiet "01110100" 5 20 init_world.
Proof.
  apply (reserved_bits_ignored Vocab.quiet "100" "01110100" 4 116); reflexivity.
Defined.

Lemma trigger_events_zero_frequency (fl : Flags) (c : Clocks) (t : Task) :
  N.eqb (Spec.flag_of fl t) 0 = false ->
  trigger_events fl 0 c = inl Py.ZeroDivisionError.
Proof.
  intros Ht. unfold trigger_events, due. cbn [Z.mul Z.eqb].
  destruct fl as [f1 f2 f3 f4 f5].
  cbn [nowPlaying streamStatus updateRepo checkLyrics swearLog].
  destruct (N.eqb f1 0) eqn:F1; [|reflexivity]. cbn [Log.and_then].
  destruct (N.eqb f2 0) eqn:F2; [|reflexivity]. cbn [Log.and_then].
  destruct (N.eqb f4 0) eqn:F4; [|reflexivity]. cbn [Log.and_then].
  destruct (N.eqb f5 0) eqn:F5; [|reflexivity]. cbn [Log.and_then].
  destruct (N.eqb f3 0) eqn:F3; [|reflexivity].
  destruct t; cbn [Spec.flag_of nowPlaying streamStatus updateRepo checkLyrics swearLog] in Ht;
    congruence.
Qed.



Lemma trigger_events_at_start (fl : Flags) (frequency : Z) :
  frequency <> 0%Z ->
  exists c,
    trigger_events fl frequency (mkClocks 0 0 0 0 0) =
    inr (c, filter (fun t => negb (N.eqb (Spec.flag_of fl t) 0)) Spec.named_tasks).
Proof.
  intros Hf. unfold trigger_events, due.
  replace (frequency * 2 =? 0)%Z with false by (symmetry; apply Z.eqb_neq; lia).
  replace (frequency * 20 =? 0)%Z with false by (symmetry; apply Z.eqb_neq; lia).
  replace (frequency * 1200 =? 0)%Z with false by (symmetry; apply Z.eqb_neq; lia).
  replace (frequency =? 0)%Z with false by (symmetry; apply Z.eqb_neq; lia).
  destruct fl as [f1 f2 f3 f4 f5].
  cbn [nowPlaying streamStatus updateRepo checkLyrics swearLog
       nowPlayingClock streamStatusClock updateRepoClock checkLyricsClock swearLogClock
       Spec.named_tasks filter Spec.flag_of].
  rewrite !Zmod_0_l. cbn [Z.eqb].
  destruct (N.eqb f1 0), (N.eqb f2 0), (N.eqb f3 0), (N.eqb f4 0), (N.eqb f5 0);
    cbn [Log.and_then negb app streamStatusClock updateRepoClock checkLyricsClock
         swearLogClock nowPlayingClock];
    rewrite ?Zmod_0_l; cbn [Z.eqb Log.and_then app]; eexists; reflexivity.
Qed.

(** X5: with a non-zero frequency the first iteration of the loop spawns every
    enabled task, each once, in the order now-playing, status, lyric,
    swear, update. *)
Theorem startup_burst (env : nat -> World -> World) (event : string) (m : N)
        (frequency : Z) (w : World) :
  Py.int_base 2 event = Some m ->
  frequency <> 0%Z ->
  trace_of (scheduler env event frequency 1 w) =
    map (pair 0%nat) (filter (Vocab.enabled m) Spec.named_tasks).
Proof.
  intros He Hf. destruct (decode_flags_spec event m He) as (fl & Ed & Hfl).
  unfold scheduler. rewrite Ed. cbn [loop].
  destruct (trigger_events_at_start fl frequency Hf) as (c & Et). rewrite Et.
  cbn [app].
  replace (filter (Vocab.enabled m) Spec.named_tasks)
    with (filter (fun t => negb (N.eqb (Spec.flag_of fl t) 0)) Spec.named_tasks).
  - destruct (check_stat_file "Done" _); reflexivity.
  - apply filter_ext. intros t. unfold Vocab.enabled. rewrite Hfl. reflexivity.
Qed.

Lemma startup_burst_witness :
  trace_of (scheduler Vocab.quiet "10001010" 5 1 init_world) =
    [(0%nat, StreamStatusTask); (0%nat, SwearLogTask); (0%nat, UpdateRepoTask)].
Proof.
  apply (startup_burst Vocab.quiet "10001010" 138 5 init_world); [reflexivity | discriminate].
Defined.

Lemma stat_file_at_poll (env : nat -> World -> World) (w : World) (k : nat) :
  (forall j x, stat_file (env j x) = stat_file x) ->
  stat_file (world_at_poll env w k) = stat_file w.
Proof.
  intros H. induction k as [|k IH]; cbn [world_at_poll]; rewrite H; [reflexivity | exact IH].
Qed.

(** X6: a kill request written to the status file before the scheduler starts
    is lost: the scheduler overwrites it with Running, and as long as
    nothing else writes the status file the loop neither returns nor
    raises, however long it runs. *)
Theorem kill_before_start_is_lost (env : nat -> World -> World) (event : string) (m : N)
        (frequency : Z) (fuel : nat) (w : World) :
  Py.int_base 2 event = Some m ->
  frequency <> 0%Z ->
  (forall j x, stat_file (env j x) = stat_file x) ->
  Vocab.finished (scheduler env event frequency fuel (set_stat_file "Done" w)) = false /\
  crashed (scheduler env event frequency fuel (set_stat_file "Done" w)) = false.
Proof.
  intros He Hf Henv. destruct (decode_flags_spec event m He) as (fl & Ed & _).
  destruct (run_prefix env fl frequency (seeded (set_stat_file "Done" w)) fuel (or_introl Hf))
    as (c & trace & E & _).
  - intros k _. unfold check_stat_file. rewrite (stat_file_at_poll env _ k Henv). reflexivity.
  - unfold scheduler. rewrite Ed. unfold seeded in E. rewrite E. split; reflexivity.
Qed.

Lemma kill_before_start_is_lost_witness :
  Vocab.finished (scheduler Vocab.quiet "100" 5 50 (set_stat_file "Done" init_world)) = false.
Proof.
  apply (kill_before_start_is_lost Vocab.quiet "100" 4 5 50 init_world);
    [reflexivity | discriminate | reflexivity].
Defined.

Lemma stream_status_up_other (net : nat -> Stream.page) (w : World) :
  Spec.call_up net (probes w) = true ->
  check_stat_file "Stream Down" w = false ->
  exists j, task_stream_status net w = Ok tt (with_probes j w).
Proof.
  intros H Hs. unfold task_stream_status. unfold bind at 1.
  destruct (probe_loop_spec net 5 (false, EmptyString) w) as (r & j & E & _ & Hex & _).
  rewrite E. rewrite (Hex H). exists j.
  cbv [bind gets ret]. cbn [fst snd].
  assert (X : check_stat_file "Stream Down" (with_probes j w) = false)
    by (destruct w; exact Hs).
  rewrite X. reflexivity.
Qed.



(** X9: the swear-log task needs both files: when the record or the snapshot
    is missing it raises FileNotFoundError and changes nothing, so it
    never creates the first snapshot itself. *)
Theorem swear_log_missing_file (w : World) :
  swear_json w = None \/ lastSwear_json w = None ->
  task_swear_log w = Raise Py.FileNotFoundError w.
Proof.
  intros H. destruct w. cbn in H.
  cbv [task_swear_log bind gets lift ret Log.read_json swear_json lastSwear_json].
  destruct swear_json0; [|reflexivity].
  destruct H as [H | H]; [discriminate|]. rewrite H. reflexivity.
Qed.

Lemma swear_log_missing_file_witness :
  let w := mkWorld None None None (Some (Spec.sample_log "report")) None
                   EmptyString "TEQ-BOT" ROBOT_EMOJI EmptyString None 0 [] [] in
  task_swear_log w = Raise Py.FileNotFoundError w.
Proof.
  intros w. apply (swear_log_missing_file w). right. reflexivity.
Defined.

Lemma compare_json_refl (a : Log.dict) :
  NoDup (Log.keys a) -> Log.compare_json a a = true.
Proof.
  intros H. apply compare_json_reordered; [exact H | apply Permutation_refl].
Qed.



(** X11: compare_json decides equality of two dicts as maps: it answers true
    exactly when every key is absent from both or bound in both to values
    that are equal for Python. *)
Theorem compare_json_iff (a b : Log.dict) :
  NoDup (Log.keys a) ->
  NoDup (Log.keys b) ->
  (Log.compare_json a b = true <->
   forall k, Vocab.same_value (Log.lookup k a) (Log.lookup k b) = true).
Proof.
  intros Ha Hb. unfold Log.compare_json. split.
  - destruct (Log.items_agree a b) eqn:Hab; [|discriminate].
    destruct (Log.items_agree b a) eqn:Hba; [|discriminate].
    intros _ k. rewrite items_agree_true in Hab, Hba.
    destruct (Log.lookup k a) as [v|] eqn:La.
    + destruct (Hab k v (lookup_in _ _ _ La)) as (v' & Lb & E). rewrite Lb. exact E.
    + destruct (Log.lookup k b) as [v'|] eqn:Lb; [|reflexivity].
      destruct (Hba k v' (lookup_in _ _ _ Lb)) as (v & La' & _). congruence.
  - intros H.
    assert (Hab : Log.items_agree a b = true).
    { apply items_agree_true. intros k v Hin.
      specialize (H k). rewrite (in_lookup k a v Ha Hin) in H.
      destruct (Log.lookup k b) as [v'|]; [eauto | discriminate]. }
    assert (Hba : Log.items_agree b a = true).
    { apply items_agree_true. intros k v Hin.
      specialize (H k). rewrite (in_lookup k b v Hb Hin) in H.
      destruct (Log.lookup k a) as [v'|]; [|discriminate].
      exists v'. split; [reflexivity|].
      cbn [Vocab.same_value] in H. destruct v, v'; cbn in *; try discriminate; auto.
      - rewrite Bool.eqb_true_iff in *. congruence.
      - rewrite Z.eqb_eq in *. congruence.
      - rewrite Z.eqb_eq in *. congruence.
      - rewrite Z.eqb_eq in *. congruence.
      - rewrite String.eqb_eq in *. congruence. }
    rewrite Hab, Hba. reflexivity.
Qed.

Lemma compare_json_iff_witness :
  Log.compare_json (Spec.sample_log "r") (Spec.reordered_log "r") = true <->
  forall k, Vocab.same_value (Log.lookup k (Spec.sample_log "r"))
                             (Log.lookup k (Spec.reordered_log "r")) = true.
Proof.
  apply compare_json_iff;
    unfold Spec.sample_log, Spec.reordered_log, Log.keys; cbn [map fst];
    repeat (constructor; [cbn [In]; intros H;
      repeat (destruct H as [H|H]; [discriminate H|]); exact H|]);
    constructor.
Defined.

Lemma py_eq_sym (v v' : Log.jvalue) : Log.py_eq v v' = Log.py_eq v' v.
Proof.
  destruct v, v'; cbn; try reflexivity.
  - destruct b, b0; reflexivity.
  - apply Z.eqb_sym.
  - apply Z.eqb_sym.
  - apply Z.eqb_sym.
  - apply String.eqb_sym.
Qed.

Lemma py_eq_trans (u v w : Log.jvalue) :
  Log.py_eq u v = true -> Log.py_eq v w = true -> Log.py_eq u w = true.
Proof.
  destruct u, v, w; cbn; try discriminate; auto;
    rewrite ?Bool.eqb_true_iff, ?Z.eqb_eq, ?String.eqb_eq; intros; subst;
    try reflexivity; try congruence;
    repeat match goal with b : bool |- _ => destruct b end; cbn in *; congruence.
Qed.

Lemma items_agree_trans (a b c : Log.dict) :
  Log.items_agree a b = true -> Log.items_agree b c = true ->
  Log.items_agree a c = true.
Proof.
  rewrite !items_agree_true. intros Hab Hbc k v Hin.
  destruct (Hab k v Hin) as (v' & Lb & E).
  destruct (Hbc k v' (lookup_in _ _ _ Lb)) as (v'' & Lc & E').
  exists v''. split; [exact Lc | exact (py_eq_trans _ _ _ E E')].
Qed.



(** X2: the task command, when none of the words USAGE, MESSAGE and SCHEDULER
    is among the arguments (they are compared in upper case), runs the
    first task, in the order now-playing, status, lyric, swear, update,
    one of whose options occurs; the order and the repetitions of the
    arguments do not matter; and the command the scheduler spawns for a
    task, the word task followed by the long option, runs that task. *)
Theorem task_command_dispatch (cmd : string) (toks : list string) :
  Py.upper cmd = "TASK" ->
  existsb Vocab.earlier_command toks = false ->
  (forall t, Main.command_handler [cmd; task_option t] = inr (Main.RunTask (Some t))) /\
  Main.command_handler (cmd :: toks) =
    inr (Main.RunTask (hd_error (filter (Vocab.present toks) Spec.named_tasks))) /\
  (forall toks', (forall x, In x toks <-> In x toks') ->
     Main.command_handler (cmd :: toks') = Main.command_handler (cmd :: toks)).
Proof.
  intros Hcmd Hc.
  assert (Hu : Py.mem "USAGE" toks = false) by (apply (mem_absent _ _ _ Hc); reflexivity).
  assert (Hm : Py.mem "MESSAGE" toks = false) by (apply (mem_absent _ _ _ Hc); reflexivity).
  assert (Hs : Py.mem "SCHEDULER" toks = false) by (apply (mem_absent _ _ _ Hc); reflexivity).
  assert (Branch : forall l,
            Py.mem "USAGE" l = false -> Py.mem "MESSAGE" l = false ->
            Py.mem "SCHEDULER" l = false ->
            Main.command_handler (cmd :: l) = inr (Main.RunTask (Main.single_task l))).
  { intros l Lu Lm Ls. unfold Main.command_handler, Main.single_task. rewrite Hcmd.
    change (Py.mem ?y ("TASK" :: ?l)) with (String.eqb y "TASK" || Py.mem y l).
    rewrite Lu, Lm, Ls. cbn [String.eqb Ascii.eqb Bool.eqb orb]. reflexivity. }
  split; [|split].
  - intros t. rewrite Branch by (destruct t; reflexivity). destruct t; reflexivity.
  - rewrite (Branch toks Hu Hm Hs). f_equal. f_equal.
    unfold Main.single_task, Spec.named_tasks. cbn [filter].
    change (Py.mem "--nowplaying" toks || Py.mem "-n" toks)
      with (Vocab.present toks NowPlayingTask).
    change (Py.mem "--status" toks || Py.mem "-s" toks)
      with (Vocab.present toks StreamStatusTask).
    change (Py.mem "--lyric" toks || Py.mem "-l" toks)
      with (Vocab.present toks CheckLyricsTask).
    change (Py.mem "--swear" toks || Py.mem "-w" toks)
      with (Vocab.present toks SwearLogTask).
    change (Py.mem "--update" toks || Py.mem "-u" toks)
      with (Vocab.present toks UpdateRepoTask).
    destruct (Vocab.present toks NowPlayingTask); [reflexivity|].
    destruct (Vocab.present toks StreamStatusTask); [reflexivity|].
    destruct (Vocab.present toks CheckLyricsTask); [reflexivity|].
    destruct (Vocab.present toks SwearLogTask); [reflexivity|].
    destruct (Vocab.present toks UpdateRepoTask); reflexivity.
  - intros toks' H.
    rewrite (Branch toks Hu Hm Hs).
    rewrite Branch by (rewrite <- (mem_same_elements _ _ _ H); assumption).
    unfold Main.single_task. rewrite !(mem_same_elements _ toks toks' H). reflexivity.
Qed.

Lemma task_command_dispatch_witness :
  Main.command_handler ["task"; "--swear"; "-s"; "-x"] =
    inr (Main.RunTask (Some StreamStatusTask)).
Proof.
  destruct (task_command_dispatch "task" ["--swear"; "-s"; "-x"] eq_refl eq_refl)
    as (_ & E & _). exact E.
Defined.

(* ================================================================== *)
(** * Properties of the metadata helpers, Slack, TuneIn and the lyric check *)
(* ================================================================== *)

(** ** Strings *)

Lemma all_chars_app (p : ascii -> bool) (a b : string) :
  Vocab.all_chars p (a ++ b) = Vocab.all_chars p a && Vocab.all_chars p b.
Proof.
  induction a as [|c a IH]; cbn [append Vocab.all_chars]; [reflexivity|].
  rewrite IH. apply andb_assoc.
Qed.

Lemma quote_byte_safe (c : ascii) :
  Vocab.all_chars Vocab.url_safe (PyStr.quote_byte c) = true.
Proof.
  destruct c as [[] [] [] [] [] [] [] []]; vm_compute; reflexivity.
Qed.

Lemma quote_plus_safe (s : string) :
  Vocab.all_chars Vocab.url_safe (PyStr.quote_plus s) = true.
Proof.
  induction s as [|c s IH]; cbn [PyStr.quote_plus]; [reflexivity|].
  rewrite all_chars_app, quote_byte_safe, IH. reflexivity.
Qed.

Lemma prefix_app (s b : string) : prefix s (s ++ b) = true.
Proof.
  induction s as [|c s IH]; cbn [append prefix]; [destruct b; reflexivity|].
  destruct (ascii_dec c c); [exact IH | congruence].
Qed.

Lemma skip_app (s b : string) : PyStr.skip (String.length s) (s ++ b) = b.
Proof.
  induction s as [|c s IH]; cbn [append String.length PyStr.skip]; [destruct b; reflexivity|].
  exact IH.
Qed.

Lemma prefix_other_head (c0 c : ascii) (sep' s : string) :
  Ascii.eqb c c0 = false -> prefix (String c0 sep') (String c s) = false.
Proof.
  intros H. cbn [prefix]. destruct (ascii_dec c0 c) as [->|]; [|reflexivity].
  rewrite Ascii.eqb_refl in H. discriminate.
Qed.

Lemma split_once_none (c0 : ascii) (sep' s : string) :
  PyStr.split_once (String c0 sep') s = None <->
  PyStr.contains (String c0 sep') s = false.
Proof.
  induction s as [|c s IH]; cbn [PyStr.split_once PyStr.contains].
  - split; reflexivity.
  - destruct (prefix (String c0 sep') (String c s)); cbn [orb].
    + split; discriminate.
    + rewrite <- IH. destruct (PyStr.split_once (String c0 sep') s) as [[a b]|].
      * split; discriminate.
      * split; reflexivity.
Qed.

Lemma split_once_here (c0 : ascii) (sep' rest : string) :
  PyStr.split_once (String c0 sep') (String c0 sep' ++ rest) = Some (EmptyString, rest).
Proof.
  pose proof (prefix_app (String c0 sep') rest) as P.
  pose proof (skip_app (String c0 sep') rest) as S.
  cbn [append] in *. cbn [PyStr.split_once]. rewrite P, S. reflexivity.
Qed.

Lemma split_once_first (c0 : ascii) (sep' a b : string) :
  Vocab.no_char c0 a = true ->
  PyStr.split_once (String c0 sep') (a ++ String c0 sep' ++ b) = Some (a, b).
Proof.
  induction a as [|c a IH]; intros H.
  - apply split_once_here.
  - cbn [Vocab.no_char Vocab.all_chars] in H. apply andb_true_iff in H.
    destruct H as [Hc Ha]. apply negb_true_iff in Hc.
    change (String c a ++ String c0 sep' ++ b)
      with (String c (a ++ String c0 sep' ++ b)).
    cbn [PyStr.split_once].
    rewrite (prefix_other_head c0 c sep' _ Hc).
    unfold Vocab.no_char in IH. rewrite (IH Ha). reflexivity.
Qed.

Lemma split_once_absent (c0 : ascii) (sep' s : string) :
  Vocab.no_char c0 s = true -> PyStr.split_once (String c0 sep') s = None.
Proof.
  induction s as [|c s IH]; intros H; [reflexivity|].
  cbn [Vocab.no_char Vocab.all_chars] in H. apply andb_true_iff in H.
  destruct H as [Hc Hs]. apply negb_true_iff in Hc.
  cbn [PyStr.split_once]. rewrite (prefix_other_head c0 c sep' _ Hc).
  unfold Vocab.no_char in IH. rewrite (IH Hs). reflexivity.
Qed.

Lemma append_assoc (a b c : string) : (a ++ b) ++ c = a ++ b ++ c.
Proof.
  induction a as [|x a IH]; cbn [append]; [reflexivity | rewrite IH; reflexivity].
Qed.

Lemma rstrip_app_kept (a b : string) :
  PyStr.rstrip b = b -> b <> EmptyString -> PyStr.rstrip (a ++ b) = a ++ b.
Proof.
  intros Hb Hne. induction a as [|c a IH]; cbn [append]; [exact Hb|].
  cbn [PyStr.rstrip]. rewrite IH.
  destruct (a ++ b) as [|x y] eqn:E; [|reflexivity].
  destruct a; cbn [append] in E; [congruence | discriminate].
Qed.

Lemma rstrip_space (a : string) : PyStr.rstrip (a ++ " ") = PyStr.rstrip a.
Proof.
  induction a as [|c a IH]; cbn [append]; [reflexivity|].
  cbn [PyStr.rstrip]. rewrite IH. reflexivity.
Qed.

Lemma strip_padded (a : string) :
  Vocab.stripped a -> PyStr.lstrip (PyStr.rstrip (" " ++ a)) = a.
Proof.
  intros [Hl Hr]. destruct a as [|c a'].
  - reflexivity.
  - rewrite (rstrip_app_kept " " (String c a') Hr) by discriminate.
    cbn [append PyStr.lstrip]. change (PyStr.is_space " ") with true. cbv beta iota.
    exact Hl.
Qed.

(** ** tunein.py *)

(** X15: parseMetadata needs the separator: without it the artist is None,
    quoting it raises TypeError, and post sends no request; with it the
    song and the artist returned are made only of letters, digits, the
    marks _ . - ~, the plus sign and percent escapes. *)
Theorem parse_metadata_separator (metadata : string) :
  (PyStr.contains "__by__" metadata = false ->
   Tunein.parseMetadata metadata = inl Py.TypeError /\
   forall sID pID pKey, Tunein.post sID pID pKey metadata = inl Py.TypeError) /\
  (PyStr.contains "__by__" metadata = true ->
   exists song artist,
     Tunein.parseMetadata metadata = inr (song, artist) /\
     Vocab.all_chars Vocab.url_safe song = true /\
     Vocab.all_chars Vocab.url_safe artist = true).
Proof.
  unfold Tunein.post, Tunein.parseMetadata, PyStr.split1. split; intros H.
  - apply split_once_none in H. rewrite H. cbn [List.length Nat.ltb Nat.leb].
    split; [reflexivity | intros; reflexivity].
  - destruct (PyStr.split_once "__by__" metadata) as [[a b]|] eqn:E.
    + cbn [List.length Nat.ltb Nat.leb nth].
      eexists. eexists. split; [reflexivity|]. split; apply quote_plus_safe.
    + apply split_once_none in E. congruence.
Qed.

Lemma parse_metadata_separator_witness :
  Tunein.parseMetadata "#NowPlaying: Beat Market by Sun Machine" = inl Py.TypeError /\
  exists song artist,
    Tunein.parseMetadata "#NowPlaying: Beat Market __by__ Sun & Machine" =
      inr (song, artist) /\
    Vocab.all_chars Vocab.url_safe artist = true.
Proof.
  split.
  - destruct (parse_metadata_separator "#NowPlaying: Beat Market by Sun Machine") as (H & _).
    apply H. reflexivity.
  - destruct (parse_metadata_separator "#NowPlaying: Beat Market __by__ Sun & Machine")
      as (_ & H).
    destruct (H eq_refl) as (song & artist & E & _ & A). exists song, artist. split; assumption.
Defined.

Lemma split1_metadata (tag title artist : string) :
  Vocab.no_char "_" tag = true ->
  Vocab.no_char "_" title = true ->
  PyStr.split1 "__by__" (tag ++ title ++ " __by__ " ++ artist) =
    [tag ++ title ++ " "; " " ++ artist].
Proof.
  intros Ht Hti. unfold PyStr.split1.
  replace (tag ++ title ++ " __by__ " ++ artist)
    with ((tag ++ title ++ " ") ++ "__by__" ++ (" " ++ artist)).
  - rewrite split_once_first; [reflexivity|].
    unfold Vocab.no_char in *. rewrite !all_chars_app, Ht, Hti. reflexivity.
  - rewrite !append_assoc. reflexivity.
Qed.

Lemma lstrip_idempotent (s : string) : PyStr.lstrip (PyStr.lstrip s) = PyStr.lstrip s.
Proof.
  induction s as [|c s IH]; [reflexivity|].
  cbn [PyStr.lstrip]. destruct (PyStr.is_space c) eqn:E; [exact IH|].
  cbn [PyStr.lstrip]. rewrite E. reflexivity.
Qed.

Lemma rstrip_idempotent (s : string) : PyStr.rstrip (PyStr.rstrip s) = PyStr.rstrip s.
Proof.
  induction s as [|c s IH]; [reflexivity|].
  cbn [PyStr.rstrip]. destruct (PyStr.rstrip s) as [|x r] eqn:E.
  - destruct (PyStr.is_space c) eqn:Ec; [reflexivity|].
    cbn [PyStr.rstrip]. rewrite Ec. reflexivity.
  - cbn [PyStr.rstrip] in *. rewrite IH. reflexivity.
Qed.

Lemma rstrip_lstrip_fixed (s : string) :
  PyStr.rstrip s = s -> PyStr.rstrip (PyStr.lstrip s) = PyStr.lstrip s.
Proof.
  induction s as [|c s IH]; intros H; [reflexivity|].
  cbn [PyStr.lstrip]. destruct (PyStr.is_space c) eqn:Ec; [|exact H].
  apply IH. cbn [PyStr.rstrip] in H. rewrite Ec in H.
  destruct (PyStr.rstrip s) as [|x r]; [discriminate|]. congruence.
Qed.

Lemma strip_is_stripped (s : string) : Vocab.stripped (PyStr.lstrip (PyStr.rstrip s)).
Proof.
  split; [apply lstrip_idempotent|].
  apply rstrip_lstrip_fixed, rstrip_idempotent.
Qed.





Lemma replace_absent (c0 : ascii) (old' new s : string) :
  Vocab.no_char c0 s = true -> Py.replace_from (String c0 old') new 0 s = s.
Proof.
  induction s as [|c s IH]; intros H; [reflexivity|].
  cbn [Vocab.no_char Vocab.all_chars] in H. apply andb_true_iff in H.
  destruct H as [Hc Hs]. apply negb_true_iff in Hc.
  cbn [Py.replace_from]. rewrite (prefix_other_head c0 c old' _ Hc).
  unfold Vocab.no_char in IH. rewrite (IH Hs). reflexivity.
Qed.

Lemma replace_skip (old new x b : string) :
  Py.replace_from old new (String.length x) (x ++ b) = Py.replace_from old new 0 b.
Proof.
  induction x as [|c x IH]; cbn [append String.length].
  - destruct b; reflexivity.
  - cbn [Py.replace_from]. exact IH.
Qed.

Lemma replace_first (c0 : ascii) (old' new a b : string) :
  Vocab.no_char c0 a = true ->
  Py.replace_from (String c0 old') new 0 (a ++ String c0 old' ++ b) =
  a ++ new ++ Py.replace_from (String c0 old') new 0 b.
Proof.
  induction a as [|c a IH]; intros H.
  - pose proof (prefix_app (String c0 old') b) as P.
    cbn [append] in *. cbn [Py.replace_from]. rewrite P.
    cbn [String.length Nat.sub]. rewrite Nat.sub_0_r, replace_skip. reflexivity.
  - cbn [Vocab.no_char Vocab.all_chars] in H. apply andb_true_iff in H.
    destruct H as [Hc Ha]. apply negb_true_iff in Hc.
    change (String c a ++ String c0 old' ++ b)
      with (String c (a ++ String c0 old' ++ b)).
    cbn [Py.replace_from]. rewrite (prefix_other_head c0 c old' _ Hc).
    unfold Vocab.no_char in IH. rewrite (IH Ha). reflexivity.
Qed.

(** X13: the message of the now-playing post: for a title and an artist
    without underscore joined by the separator, the separator becomes the
    word by; a text without underscore is posted as it is. *)
Theorem now_playing_separator (title artist : string) :
  Vocab.no_char "_" title = true ->
  Vocab.no_char "_" artist = true ->
  now_playing (title ++ " __by__ " ++ artist) = title ++ " by " ++ artist /\
  now_playing title = title.
Proof.
  intros Ht Ha. unfold now_playing, Py.replace. split.
  - replace (title ++ " __by__ " ++ artist) with ((title ++ " ") ++ "__by__" ++ (" " ++ artist))
      by (rewrite !append_assoc; reflexivity).
    rewrite replace_first.
    + rewrite replace_absent by (cbn [append Vocab.no_char Vocab.all_chars] in *; exact Ha).
      rewrite !append_assoc. reflexivity.
    + unfold Vocab.no_char in *. rewrite all_chars_app, Ht. reflexivity.
  - apply replace_absent, Ht.
Qed.

Lemma now_playing_separator_witness :
  now_playing ("#NowPlaying: Beat Market" ++ " __by__ " ++ "Sun Machine") =
    "#NowPlaying: Beat Market by Sun Machine".
Proof.
  destruct (now_playing_separator "#NowPlaying: Beat Market" "Sun Machine" eq_refl eq_refl)
    as (H & _). exact H.
Defined.

(** ** slack.py *)

Lemma first_match_in (key value : Slack.channel -> string) (wanted : string)
      (channels : list Slack.channel) (found : string) :
  Slack.first_match key value wanted channels = Some found ->
  exists c, In c channels /\ key c = wanted /\ value c = found.
Proof.
  induction channels as [|c rest IH]; cbn [Slack.first_match]; [discriminate|].
  destruct (String.eqb (key c) wanted) eqn:E.
  - apply String.eqb_eq in E. intros H. inversion H. exists c. cbn. auto.
  - intros H. destruct (IH H) as (c' & Hin & Hk & Hv). exists c'. cbn. auto.
Qed.

Lemma first_match_none (key value : Slack.channel -> string) (wanted : string)
      (channels : list Slack.channel) :
  Slack.first_match key value wanted channels = None <->
  ~ In wanted (map key channels).
Proof.
  induction channels as [|c rest IH]; cbn [Slack.first_match map In]; [tauto|].
  destruct (String.eqb (key c) wanted) eqn:E.
  - apply String.eqb_eq in E. split; [discriminate | tauto].
  - apply String.eqb_neq in E. rewrite IH. tauto.
Qed.

Lemma first_match_back (channels : list Slack.channel) (n i : string) :
  NoDup (map Slack.id channels) ->
  Slack.first_match Slack.name Slack.id n channels = Some i ->
  Slack.first_match Slack.id Slack.name i channels = Some n.
Proof.
  induction channels as [|c rest IH]; cbn [Slack.first_match map]; [discriminate|].
  intros Hnd. inversion Hnd as [|? ? Hnot Hnd']. subst.
  destruct (String.eqb (Slack.name c) n) eqn:E.
  - apply String.eqb_eq in E. intros H. inversion H. subst.
    rewrite String.eqb_refl. reflexivity.
  - intros H. destruct (String.eqb (Slack.id c) i) eqn:Ei.
    + apply String.eqb_eq in Ei. exfalso. apply Hnot.
      destruct (first_match_in _ _ _ _ _ H) as (c' & Hin & _ & Hv).
      rewrite Ei, <- Hv. apply in_map, Hin.
    + apply IH; assumption.
Qed.

Lemma channel_name_of_id (channels : list Slack.channel) (n i : string) :
  NoDup (map Slack.id channels) ->
  Slack.get_channel_id (Slack.ApiOk channels) n = inr (Some i) ->
  Slack.get_channel_name (Slack.ApiOk channels) (Some i) = inr (Some n).
Proof.
  intros Hnd H. unfold Slack.get_channel_id, Slack.get_channel_name in *.
  cbn [Slack.get_channels] in *. inversion H as [H'].
  rewrite (first_match_back channels n i Hnd H'). reflexivity.
Qed.

(** X17: name to id and back: with pairwise distinct ids, the id found for a
    name leads back to that name; no id is found exactly when no channel
    bears the name; and both lookups raise TypeError when the channel list
    cannot be fetched. *)
Theorem channel_id_round_trip (channels : list Slack.channel) (n : string) :
  NoDup (map Slack.id channels) ->
  (forall i,
     Slack.get_channel_id (Slack.ApiOk channels) n = inr (Some i) ->
     Slack.get_channel_name (Slack.ApiOk channels) (Some i) = inr (Some n)) /\
  (Slack.get_channel_id (Slack.ApiOk channels) n = inr None <->
   ~ In n (map Slack.name channels)) /\
  (forall error i,
     Slack.get_channel_id (Slack.ApiError error) n = inl Py.TypeError /\
     Slack.get_channel_name (Slack.ApiError error) i = inl Py.TypeError).
Proof.
  intros Hnd. unfold Slack.get_channel_id, Slack.get_channel_name. cbn [Slack.get_channels].
  split; [|split].
  - intros i H. apply (channel_name_of_id channels n i Hnd H).
  - rewrite <- first_match_none. split; intros H; [inversion H; reflexivity | rewrite H; reflexivity].
  - intros error i. split; reflexivity.
Qed.

Lemma channel_id_round_trip_witness :
  let channels := [Slack.mkChannel "general" "C01"; Slack.mkChannel "engineering" "C02"] in
  Slack.get_channel_id (Slack.ApiOk channels) "engineering" = inr (Some "C02") /\
  Slack.get_channel_name (Slack.ApiOk channels) (Some "C02") = inr (Some "engineering").
Proof.
  intros channels. split; [reflexivity|].
  destruct (channel_id_round_trip channels "engineering") as (H & _).
  - cbn [map Slack.id channels]. constructor.
    + cbn [In]. intros [H | H]; [discriminate H | exact H].
    + constructor; [intros [] | constructor].
  - apply H. reflexivity.
Defined.

(** X18: sending to a channel resolved by name: a refused post is reported
    with the error of the API and nothing is raised; an accepted post is
    reported with the user, the message, the emoji and the name that was
    asked for; an accepted post to a channel that cannot be named
    afterwards, the id being None or the list call failing, raises
    TypeError although the message was sent. *)
Theorem send_message_report (channels : list Slack.channel)
        (n message username emoji : string) (i : option string) :
  NoDup (map Slack.id channels) ->
  Slack.get_channel_id (Slack.ApiOk channels) n = inr i ->
  (forall error after,
     Slack.send_message (Slack.ApiError error) after i message username emoji =
       inr (false, "slack.send_message() error: message failed to send. | " ++ error)) /\
  (i <> None ->
   Slack.send_message (Slack.ApiOk tt) (Slack.ApiOk channels) i message username emoji =
     inr (true, "User " ++ username ++ Py.nl ++ "sent message: " ++ message ++ Py.nl ++
                " to channel #" ++ n ++ Py.nl ++ " with emoji " ++ emoji)) /\
  (i = None ->
   Slack.send_message (Slack.ApiOk tt) (Slack.ApiOk channels) i message username emoji =
     inl Py.TypeError) /\
  (forall error,
   Slack.send_message (Slack.ApiOk tt) (Slack.ApiError error) i message username emoji =
     inl Py.TypeError).
Proof.
  intros Hnd Hid. split; [intros; reflexivity|]. split; [|split].
  - intros Hi. destruct i as [i|]; [|congruence].
    unfold Slack.send_message.
    rewrite (channel_name_of_id channels n i Hnd Hid).
    cbn [Log.and_then]. rewrite !append_assoc. reflexivity.
  - intros ->. reflexivity.
  - intros error. reflexivity.
Qed.

Lemma send_message_report_witness :
  let channels := [Slack.mkChannel "general" "C01"; Slack.mkChannel "engineering" "C02"] in
  exists text,
    Slack.send_message (Slack.ApiOk tt) (Slack.ApiOk channels) (Some "C02")
                       "hello" "TEQ-BOT" ":robot_face:" = inr (true, text) /\
    PyStr.contains "#engineering" text = true.
Proof.
  intros channels.
  destruct (send_message_report channels "engineering" "hello" "TEQ-BOT" ":robot_face:"
                                (Some "C02")) as (_ & H & _).
  - cbn [map Slack.id channels]. constructor.
    + cbn [In]. intros [H | H]; [discriminate H | exact H].
    + constructor; [intros [] | constructor].
  - reflexivity.
  - eexists. split; [apply H; discriminate | reflexivity].
Defined.

(** ** genius.py *)

Lemma count_app_free (c0 : ascii) (sub' a b : string) :
  Vocab.no_char c0 a = true ->
  PyStr.count_from (String c0 sub') 0 (a ++ b) = PyStr.count_from (String c0 sub') 0 b.
Proof.
  induction a as [|c a IH]; intros H; [reflexivity|].
  cbn [Vocab.no_char Vocab.all_chars] in H. apply andb_true_iff in H.
  destruct H as [Hc Ha]. apply negb_true_iff in Hc.
  cbn [append PyStr.count_from]. rewrite (prefix_other_head c0 c sub' _ Hc).
  apply IH, Ha.
Qed.

Lemma count_skip (sub x b : string) :
  PyStr.count_from sub (String.length x) (x ++ b) = PyStr.count_from sub 0 b.
Proof.
  induction x as [|c x IH]; cbn [append String.length].
  - destruct b; reflexivity.
  - cbn [PyStr.count_from]. exact IH.
Qed.

Lemma count_app_fail (b : string) :
  PyStr.count_from "FAIL" 0 ("FAIL" ++ b) = S (PyStr.count_from "FAIL" 0 b).
Proof.
  pose proof (prefix_app "FAIL" b) as P. pose proof (count_skip "FAIL" "AIL" b) as C.
  cbn [append String.length] in *. cbn [PyStr.count_from]. rewrite P.
  cbn [String.length Nat.sub]. rewrite ?C. reflexivity.
Qed.

Lemma count_app_found (b : string) :
  PyStr.count_from "FAIL" 0 ("Found" ++ b) = PyStr.count_from "FAIL" 0 b.
Proof.
  cbn [append]. cbn [PyStr.count_from].
  replace (prefix "FAIL" (String "F" (String "o" (String "u" (String "n" (String "d" b))))))
    with false by (cbn [prefix]; destruct (ascii_dec "F" "F"); [|congruence];
                   destruct (ascii_dec "A" "o"); [discriminate | reflexivity]).
  apply (count_app_free "F" "AIL" "ound" b). reflexivity.
Qed.

Lemma lower_ascii_not_upper_f (c : ascii) :
  Ascii.eqb (PyStr.lower_ascii c) "F" = false.
Proof.
  destruct c as [[] [] [] [] [] [] [] []]; vm_compute; reflexivity.
Qed.

Lemma lower_no_upper_f (s : string) : Vocab.no_char "F" (PyStr.lower s) = true.
Proof.
  induction s as [|c s IH]; [reflexivity|].
  cbn [PyStr.lower Vocab.no_char Vocab.all_chars].
  rewrite lower_ascii_not_upper_f. exact IH.
Qed.

Lemma lower_ascii_idempotent (c : ascii) :
  PyStr.lower_ascii (PyStr.lower_ascii c) = PyStr.lower_ascii c.
Proof.
  destruct c as [[] [] [] [] [] [] [] []]; vm_compute; reflexivity.
Qed.

Lemma lower_idempotent (s : string) : PyStr.lower (PyStr.lower s) = PyStr.lower s.
Proof.
  induction s as [|c s IH]; [reflexivity|].
  cbn [PyStr.lower]. rewrite lower_ascii_idempotent, IH. reflexivity.
Qed.

Section GeniusFacts.

Variable stem : string -> string.

Lemma bad_words_found_spec (tokens bad_words : list string) :
  Forall (fun w => Py.mem (stem w) bad_words = true /\ PyStr.lower w = w /\
                   Vocab.no_char "F" w = true)
         (Genius.bad_words_found stem tokens bad_words).
Proof.
  induction tokens as [|word rest IH]; cbn [Genius.bad_words_found]; [constructor|].
  destruct (Py.mem (stem (PyStr.lower (PyStr.strip_chars "!,.?" word))) bad_words) eqn:E;
    [|exact IH].
  constructor; [|exact IH].
  split; [exact E|]. split; [apply lower_idempotent | apply lower_no_upper_f].
Qed.

Lemma bad_words_found_length (tokens bad_words : list string) :
  (List.length (Genius.bad_words_found stem tokens bad_words) <= List.length tokens)%nat.
Proof.
  induction tokens as [|word rest IH]; cbn [Genius.bad_words_found List.length]; [lia|].
  destruct (Py.mem _ bad_words); cbn [List.length]; lia.
Qed.

(** X19: the word-list test fails exactly when it reports a word and passes
    exactly when it reports none; every word it reports is in lower case
    and its stem is on the list; it reports no more words than the lyrics
    have tokens; and with an empty list every text passes. *)
Theorem clean_test_02_report (lyrics : string) (bad_words : list string) :
  let code := fst (Genius.clean_test_02 stem lyrics bad_words) in
  let found := snd (Genius.clean_test_02 stem lyrics bad_words) in
  (code = Genius.SONG_HAS_SWEARS <-> found <> []) /\
  (code = Genius.SONG_SWEAR_FREE <-> found = []) /\
  Forall (fun w => Py.mem (stem w) bad_words = true /\ PyStr.lower w = w) found /\
  (List.length found <= List.length (PyStr.split_whitespace lyrics))%nat /\
  (bad_words = [] -> Genius.clean_test_02 stem lyrics bad_words = (Genius.SONG_SWEAR_FREE, [])).
Proof.
  intros code found. unfold code, found, Genius.clean_test_02.
  pose proof (bad_words_found_spec (PyStr.split_whitespace lyrics) bad_words) as Hs.
  pose proof (bad_words_found_length (PyStr.split_whitespace lyrics) bad_words) as Hl.
  split; [|split; [|split; [|split]]].
  - destruct (Genius.bad_words_found stem _ bad_words) as [|w l]; cbn; split;
      intros; congruence || discriminate.
  - destruct (Genius.bad_words_found stem _ bad_words) as [|w l]; cbn; split;
      intros; congruence || discriminate.
  - destruct (0 <? _)%nat; cbn [snd];
      (eapply Forall_impl; [|exact Hs]); cbn; tauto.
  - destruct (0 <? _)%nat; cbn [snd]; exact Hl.
  - intros ->.
    assert (E : forall tokens, Genius.bad_words_found stem tokens [] = []).
    { induction tokens as [|x r IH]; [reflexivity | exact IH]. }
    rewrite E. reflexivity.
Qed.

End GeniusFacts.

Lemma count_free (c0 : ascii) (sub' a : string) :
  Vocab.no_char c0 a = true -> PyStr.count_from (String c0 sub') 0 a = 0%nat.
Proof.
  induction a as [|c a IH]; intros H; [reflexivity|].
  cbn [Vocab.no_char Vocab.all_chars] in H. apply andb_true_iff in H.
  destruct H as [Hc Ha]. apply negb_true_iff in Hc.
  cbn [PyStr.count_from]. rewrite (prefix_other_head c0 c sub' _ Hc).
  apply IH, Ha.
Qed.

Lemma join_all_chars (p : ascii -> bool) (sep : string) (l : list string) :
  Vocab.all_chars p sep = true ->
  Forall (fun w => Vocab.all_chars p w = true) l ->
  Vocab.all_chars p (Py.join sep l) = true.
Proof.
  intros Hsep H. induction H as [|w l Hw Hl IH]; [reflexivity|].
  cbn [Py.join]. destruct l as [|w' l']; [exact Hw|].
  rewrite !all_chars_app, Hw, Hsep. exact IH.
Qed.

(** The number of FAIL in a report on two tests, when the song, the
    artist, the lyrics and the words found hold no capital F: one for each
    failed test. *)
Lemma report_fail_count (song artist lyrics : string) (c1 c2 : Z) (l1 l2 : list string) :
  Vocab.no_char "F" song = true ->
  Vocab.no_char "F" artist = true ->
  Vocab.no_char "F" lyrics = true ->
  Forall (fun w => Vocab.no_char "F" w = true) l2 ->
  PyStr.count "FAIL" (Genius.generate_report song artist lyrics [(c1, l1); (c2, l2)]) =
  ((if Z.eqb c1 Genius.SONG_HAS_SWEARS then 1 else 0) +
   (if Z.eqb c2 Genius.SONG_HAS_SWEARS then 1 else 0))%nat.
Proof.
  intros Hs Ha Hl Hw.
  assert (Hj : Vocab.no_char "F" (Py.join ", " l2) = true)
    by (apply join_all_chars; [reflexivity | exact Hw]).
  unfold PyStr.count, Genius.generate_report, Genius.evaluate_tests.
  cbn [Genius.evaluate_from fst snd Nat.add Nat.ltb Nat.leb].
  unfold Genius.test_code.
  change (PyStr.str_of_nat 1) with "1". change (PyStr.str_of_nat 2) with "2".
  change "FAIL Profanity Test #" with ("FAIL" ++ " Profanity Test #").
  change "Song Lyrics Not Found" with ("Song Lyrics Not " ++ "Found").
  destruct (Z.eqb c1 Genius.SONG_HAS_SWEARS), (Z.eqb c1 Genius.SONG_SWEAR_FREE),
           (Z.eqb c2 Genius.SONG_HAS_SWEARS), (Z.eqb c2 Genius.SONG_SWEAR_FREE);
    rewrite !append_assoc;
    repeat first
      [ rewrite count_app_fail
      | rewrite count_app_found
      | rewrite (count_app_free "F" "AIL") by (first [assumption | reflexivity]) ];
    rewrite (count_free "F" "AIL" lyrics Hl); reflexivity.
Qed.

Section GeniusRun.

Variable stem : string -> string.
Variable wdylike : string -> Py.exn + string.
Variable get_api_path : string -> string -> Py.exn + option string.
Variable get_lyrics : string -> Py.exn + string.

(** X20: the verdict of run: a song that is not found is reported clean; a
    song that is found, with no capital F in its name, its artist and its
    lyrics, is reported not clean exactly when both tests fail, so the
    word-list test failing alone leaves it clean. *)
Theorem run_verdict (song artist : string) (bad_words : list string) :
  (get_api_path song artist = inr None ->
   Genius.run stem wdylike get_api_path get_lyrics song artist bad_words =
     inr ("Song Lyrics Not Found", true)) /\
  (forall path lyrics text,
     get_api_path song artist = inr (Some path) ->
     get_lyrics path = inr lyrics ->
     wdylike lyrics = inr text ->
     Vocab.no_char "F" song = true ->
     Vocab.no_char "F" artist = true ->
     Vocab.no_char "F" lyrics = true ->
     let t1 := Genius.clean_test_01 text in
     let t2 := Genius.clean_test_02 stem lyrics bad_words in
     Genius.run stem wdylike get_api_path get_lyrics song artist bad_words =
       inr (Genius.generate_report song artist lyrics [t1; t2],
            negb (Z.eqb (fst t1) Genius.SONG_HAS_SWEARS &&
                  Z.eqb (fst t2) Genius.SONG_HAS_SWEARS))).
Proof.
  split.
  - intros E. unfold Genius.run. rewrite E. reflexivity.
  - intros path lyrics text Hp Hg Hw Hs Ha Hl t1 t2.
    unfold Genius.run, Genius.run_tests.
    rewrite Hp. cbn [Log.and_then]. rewrite Hg. cbn [Log.and_then].
    rewrite Hw. cbn [Log.and_then]. fold t1 t2.
    assert (Hc : PyStr.count "FAIL" (Genius.generate_report song artist lyrics [t1; t2]) =
                 ((if Z.eqb (fst t1) Genius.SONG_HAS_SWEARS then 1 else 0) +
                  (if Z.eqb (fst t2) Genius.SONG_HAS_SWEARS then 1 else 0))%nat).
    { destruct t1 as [c1 l1] eqn:E1. destruct t2 as [c2 l2] eqn:E2. cbn [fst].
      apply report_fail_count; try assumption.
      pose proof (bad_words_found_spec stem (PyStr.split_whitespace lyrics) bad_words) as Hf.
      assert (El : l2 = Genius.bad_words_found stem (PyStr.split_whitespace lyrics) bad_words).
      { unfold t2, Genius.clean_test_02 in E2.
        destruct (0 <? _)%nat in E2; inversion E2; reflexivity. }
      rewrite El. eapply Forall_impl; [|exact Hf]. cbn. tauto. }
    rewrite Hc.
    destruct (Z.eqb (fst t1) Genius.SONG_HAS_SWEARS),
             (Z.eqb (fst t2) Genius.SONG_HAS_SWEARS); reflexivity.
Qed.

End GeniusRun.

Lemma run_verdict_witness :
  let stem := fun w : string => w in
  let wdylike := fun _ : string => @inr Py.exn string "false" in
  let get_api_path := fun _ _ : string => @inr Py.exn (option string) (Some "/songs/1") in
  let get_lyrics := fun _ : string => @inr Py.exn string "oh damn, it rains" in
  exists report,
    Genius.run stem wdylike get_api_path get_lyrics "Rain" "Sun Machine" ["damn"] =
      inr (report, true) /\
    fst (Genius.clean_test_02 stem "oh damn, it rains" ["damn"]) = Genius.SONG_HAS_SWEARS.
Proof.
  intros stem wdylike get_api_path get_lyrics.
  destruct (run_verdict stem wdylike get_api_path get_lyrics "Rain" "Sun Machine" ["damn"])
    as (_ & H).
  eexists. split; [|reflexivity].
  apply (H "/songs/1" "oh damn, it rains" "false"); reflexivity.
Defined.

Lemma clean_test_02_report_witness :
  Genius.clean_test_02 (fun w => w) "oh Damn, it rains" [] = (Genius.SONG_SWEAR_FREE, []).
Proof.
  destruct (clean_test_02_report (fun w => w) "oh Damn, it rains" []) as (_ & _ & _ & _ & H).
  apply H. reflexivity.
Defined.

(** ** teq.py, the lyric check *)

Section LyricCheckFacts.

Import TeqLyrics.

Variable genius_run : string -> string -> list string -> Py.exn + (string * bool).

Lemma lyric_marker_after_message (msg chan emo : string) (w : World) :
  lyric_file (world_of (teq_message msg chan emo w)) = lyric_file w.
Proof. destruct w. reflexivity. Qed.

(** What a run of the lyric check leaves behind for the next one: the
    logger file untouched and, unless the logger file is missing, the
    marker equal to it. *)
Lemma lyric_check_marker (s : Station) (np : string) :
  nowPlaying_txt (logger s) = Some np ->
  nowPlaying_txt (logger (station_of (task_check_lyrics genius_run s))) = Some np /\
  get_last_lyric (bot (station_of (task_check_lyrics genius_run s))) = np.
Proof.
  intros Hnp. unfold task_check_lyrics, get_now_playing_logger. rewrite Hnp.
  destruct (negb (String.eqb np (get_last_lyric (bot s)))) eqn:E.
  - unfold get_profanity. cbn [logger].
    destruct (profanity_txt (logger s)) as [lines|]; [|split; [exact Hnp | reflexivity]].
    destruct (genius_run _ _ _) as [e|[msg clean]]; [split; [exact Hnp | reflexivity]|].
    destruct clean; cbn [negb station_of post_lyrics logger bot nowPlaying_txt];
      (split; [exact Hnp|]).
    + reflexivity.
    + unfold get_last_lyric. rewrite lyric_marker_after_message. reflexivity.
  - cbn [station_of]. split; [exact Hnp|].
    apply negb_false_iff, String.eqb_eq in E. symmetry. exact E.
Qed.



End LyricCheckFacts.



(** ** teq.py, [compare_songs] *)

(** X23: compare_songs answers whether the stream differs from the song
    remembered and remembers what the stream answered, an error message
    included; asked again while the stream answers the same, it answers no
    and keeps what it remembered. *)
Theorem compare_songs_repeat (net : nat -> Stream.page) (w : World) :
  Stream.ping_stream (net (S (probes w))) = Stream.ping_stream (net (probes w)) ->
  exists b w1 w2,
    TeqLyrics.compare_songs net w = Ok b w1 /\
    (b = true <-> lastSong w <> snd (Stream.ping_stream (net (probes w)))) /\
    lastSong w1 = snd (Stream.ping_stream (net (probes w))) /\
    TeqLyrics.compare_songs net w1 = Ok false w2 /\
    lastSong w2 = lastSong w1.
Proof.
  intros Hsame.
  unfold TeqLyrics.compare_songs, get_now_playing, ping_stream.
  cbv [bind gets ret modify].
  set (check := snd (Stream.ping_stream (net (probes w)))).
  destruct w as [a1 a2 a3 a4 a5 a6 a7 a8 a9 a10 a11 a12 a13].
  cbv [probes lastSong with_probes set_last_song with_lastSong] in *.
  fold check.
  destruct (String.eqb _ check) eqn:E; cbn [negb].
  - apply String.eqb_eq in E. do 3 eexists.
    split; [reflexivity|]. split; [split; [discriminate | intros H; contradiction H]|].
    split; [exact E|]. cbv beta iota. rewrite Hsame. fold check.
    rewrite E, String.eqb_refl. cbn [negb]. split; reflexivity.
  - apply String.eqb_neq in E. do 3 eexists.
    split; [reflexivity|]. split; [split; [intros _; exact E | reflexivity]|].
    split; [reflexivity|]. cbv beta iota. rewrite Hsame. fold check.
    rewrite String.eqb_refl. cbn [negb]. split; reflexivity.
Qed.

Lemma compare_songs_repeat_witness :
  exists w1 w2,
    TeqLyrics.compare_songs (fun _ => Stream.UrlTimeout) init_world = Ok true w1 /\
    TeqLyrics.compare_songs (fun _ => Stream.UrlTimeout) w1 = Ok false w2.
Proof.
  destruct (compare_songs_repeat (fun _ => Stream.UrlTimeout) init_world eq_refl)
    as (b & w1 & w2 & E1 & Hb & _ & E2 & _).
  exists w1, w2. split; [|exact E2].
  assert (Hbt : b = true) by (apply Hb; discriminate).
  rewrite <- Hbt. exact E1.
Defined.

(** ** teq.py, the now-playing task and TuneIn *)

Lemma post_without_separator (sID pID pKey metadata : string) :
  PyStr.contains "__by__" metadata = false ->
  Tunein.post sID pID pKey metadata = inl Py.TypeError.
Proof.
  intros H. unfold Tunein.post, Tunein.parseMetadata, PyStr.split1.
  apply split_once_none in H. rewrite H. reflexivity.
Qed.

Lemma post_with_separator (sID pID pKey metadata : string) :
  PyStr.contains "__by__" metadata = true ->
  exists url, Tunein.post sID pID pKey metadata = inr url.
Proof.
  intros H. unfold Tunein.post, Tunein.parseMetadata, PyStr.split1.
  destruct (PyStr.split_once "__by__" metadata) as [[a b]|] eqn:E.
  - cbn [List.length Nat.ltb Nat.leb nth Log.and_then]. eexists. reflexivity.
  - apply split_once_none in E. congruence.
Qed.

Lemma tunein_with_separator (keys : TeqTunein.Keys) (metadata : string) (w : World) :
  PyStr.contains "__by__" metadata = true ->
  TeqTunein.tunein keys metadata w = tunein metadata w.
Proof.
  intros H. unfold TeqTunein.tunein.
  destruct (post_with_separator (TeqTunein.tuneinStationID keys)
              (TeqTunein.tuneinPartnerID keys) (TeqTunein.tuneinPartnerKey keys)
              metadata H) as (url & E).
  rewrite E. reflexivity.
Qed.

Lemma tunein_without_separator (keys : TeqTunein.Keys) (metadata : string) (w : World) :
  PyStr.contains "__by__" metadata = false ->
  TeqTunein.tunein keys metadata w = Raise Py.TypeError w.
Proof.
  intros H. unfold TeqTunein.tunein. rewrite post_without_separator by exact H. reflexivity.
Qed.

Ltac run_posting_task :=
  cbv [TeqTunein.task_now_playing task_now_playing check_last_played get_now_playing
       ping_stream teq_message
       bind ret gets modify lift
       get_last_played set_last_played set_last_song
       set_emoji set_message set_channel send_message channel_name
       with_song_file with_lastSong with_emoji with_message with_channel with_probes
       with_outbox
       song_file lyric_file stat_file swear_json lastSwear_json lastSong
       username emoji message channel probes outbox tunein_posts].

(** The now-playing task with the TuneIn call carried out, for the track
    the stream reports at the second request of the run. *)
Lemma posting_task_new_track (keys : TeqTunein.Keys) (net : nat -> Stream.page)
      (w : World) (s : string) :
  let track := snd (Stream.ping_stream (net (S (probes w)))) in
  song_file w = Some s ->
  s = "None" \/ s <> track ->
  exists w1,
    outbox w1 =
      (outbox w ++ [mkNotification "nowplaying" (now_playing track) (username w)
                                   MUSIC_EMOJI])%list /\
    song_file w1 = Some track /\
    tunein_posts w1 = tunein_posts w /\
    TeqTunein.task_now_playing keys net w = TeqTunein.tunein keys track w1 /\
    task_now_playing net w = tunein track w1.
Proof.
  intros track Hs Hnew. destruct w. cbv [song_file probes] in *. subst song_file0.
  fold track.
  assert (Hb : (String.eqb s "None" || negb (String.eqb track s)) = true).
  { destruct Hnew as [-> | Hn]; [reflexivity|].
    apply orb_true_iff. right. apply negb_true_iff, String.eqb_neq. congruence. }
  eexists. split; [|split; [|split; [|split]]].
  4: { run_posting_task. fold track.
       destruct (String.eqb s "None"); [reflexivity|].
       cbn [orb] in Hb. rewrite Hb. reflexivity. }
  4: { run_posting_task. fold track.
       destruct (String.eqb s "None"); [reflexivity|].
       cbn [orb] in Hb. rewrite Hb. reflexivity. }
  all: reflexivity.
Qed.




(** ** teq.py, [teq_message] and Slack *)

Ltac run_slack_message :=
  cbv [TeqSlack.teq_message TeqSlack.set_channel TeqSlack.send_message
       teq_message send_message
       bind ret gets modify
       set_emoji set_message set_channel channel_name
       with_emoji with_message with_channel with_outbox
       song_file lyric_file stat_file swear_json lastSwear_json lastSong
       username emoji message channel probes outbox tunein_posts].

(** X25: teq_message with the Slack calls carried out: when the channel list
    cannot be fetched it raises TypeError before anything is posted, the
    emoji and the message left as set; when the list is fetched and the
    post is refused it returns with nothing posted, the emoji reset and
    the message cleared; when the list is fetched both times, with
    distinct ids and a channel of the name asked for, and the post is
    accepted, it returns having posted once, to the id of that channel,
    what the tasks above record under the name of the channel. *)
Theorem teq_message_slack
        (channels_call : nat -> Slack.answer (list Slack.channel))
        (post_call : option string -> string -> Slack.answer unit)
        (msg chan emo : string) (w : World) :
  (forall error,
     channels_call 0%nat = Slack.ApiError error ->
     TeqSlack.teq_message channels_call post_call msg chan emo w =
       Raise Py.TypeError (set_message msg (set_emoji emo w))) /\
  (forall channels,
     channels_call 0%nat = Slack.ApiOk channels ->
     (forall i, exists error, post_call i msg = Slack.ApiError error) ->
     exists w1,
       TeqSlack.teq_message channels_call post_call msg chan emo w = Ok tt w1 /\
       Spec.posted w w1 = [] /\
       emoji w1 = ROBOT_EMOJI /\ message w1 = EmptyString) /\
  (forall channels,
     channels_call 0%nat = Slack.ApiOk channels ->
     channels_call 1%nat = Slack.ApiOk channels ->
     NoDup (map Slack.id channels) ->
     In chan (map Slack.name channels) ->
     (forall i, post_call i msg = Slack.ApiOk tt) ->
     exists i w1,
       Slack.get_channel_id (Slack.ApiOk channels) chan = inr (Some i) /\
       TeqSlack.teq_message channels_call post_call msg chan emo w = Ok tt w1 /\
       Spec.posted w w1 = [mkNotification i msg (username w) emo] /\
       Spec.posted w (world_of (teq_message msg chan emo w)) =
         [mkNotification chan msg (username w) emo] /\
       emoji w1 = ROBOT_EMOJI /\ message w1 = EmptyString).
Proof.
  split; [|split].
  - intros error E. destruct w. run_slack_message. rewrite E. reflexivity.
  - intros channels E Hpost. destruct w. run_slack_message. rewrite E.
    cbv [Slack.get_channel_id Slack.get_channels].
    destruct (Hpost (Slack.first_match Slack.name Slack.id chan channels)) as (error & Ep).
    rewrite Ep. cbv [Slack.send_message].
    eexists. split; [reflexivity|]. split; [|split; reflexivity].
    apply posted_same. reflexivity.
  - intros channels E0 E1 Hnd Hin Hpost.
    destruct (Slack.first_match Slack.name Slack.id chan channels) as [i|] eqn:Ef.
    2: { apply first_match_none in Ef. contradiction. }
    assert (Eid : Slack.get_channel_id (Slack.ApiOk channels) chan = inr (Some i))
      by (cbv [Slack.get_channel_id Slack.get_channels]; rewrite Ef; reflexivity).
    pose proof (first_match_back channels chan i Hnd Ef) as Eb.
    exists i. destruct w. run_slack_message. rewrite E0, E1.
    cbv [Slack.get_channel_id Slack.get_channels]. rewrite Ef, (Hpost (Some i)).
    cbv [Slack.send_message Slack.get_channel_name Slack.get_channels Log.and_then].
    rewrite Eb.
    eexists. split; [reflexivity|]. split; [reflexivity|].
    split; [apply posted_app; reflexivity|].
    split; [apply posted_app; reflexivity|]. split; reflexivity.
Qed.

Lemma teq_message_slack_witness :
  let channels := [Slack.mkChannel "general" "C01"; Slack.mkChannel "engineering" "C02"] in
  let channels_call := fun _ : nat => Slack.ApiOk channels in
  let post_call := fun (_ : option string) (_ : string) => Slack.ApiOk tt in
  exists w1,
    TeqSlack.teq_message channels_call post_call "hello" "engineering" SKULL_EMOJI
                         init_world = Ok tt w1 /\
    Spec.posted init_world w1 = [mkNotification "C02" "hello" "TEQ-BOT" SKULL_EMOJI].
Proof.
  intros channels channels_call post_call.
  destruct (teq_message_slack channels_call post_call "hello" "engineering" SKULL_EMOJI
                              init_world) as (_ & _ & H).
  destruct (H channels eq_refl eq_refl) as (i & w1 & Ei & E & P & _).
  - cbn [map Slack.id channels]. constructor.
    + cbn [In]. intros [F | F]; [discriminate F | exact F].
    + constructor; [intros [] | constructor].
  - cbn [map Slack.name channels In]. right. left. reflexivity.
  - intros i. reflexivity.
  - exists w1. split; [exact E|].
    assert (Hi : i = "C02") by (vm_compute in Ei; congruence).
    rewrite P, Hi. reflexivity.
Defined.
